(** * Leader-side replication round of the Raft implementation

    A shallow embedding of [src/v/raft/replicate_entries_stm.cc]
    (class [raft::replicate_entries_stm]) and the properties of one
    replication round: the follower skip policy, the self append, the
    per-peer dispatch with its dispatch semaphore, the leader's own flush
    slot and the commit wait.

    Conventions of the embedding.
    - [model::offset], [model::term_id], [model::node_id], request sequence
      numbers and clock readings are 64-bit integers in the source; none of
      the modelled code does arithmetic on them that could overflow (only
      comparisons, one [std::max] and one subtraction of two clock values),
      so they are [Z].
    - The object [*_ptr] (the owning [consensus]) and the state machine's own
      fields are two records, threaded together with a log of the calls
      made to collaborators whose bodies are not in this file.
    - Seastar futures are sequentialised: a [co_await] or [.then] is a bind,
      a failed future is an exception outcome, [handle_exception] and
      [finally] are the usual handlers. A [vassert] that fails aborts the
      process: it is its own outcome, and no handler catches it.
    - Work started in the background ([(void)dispatch_one(rni)], the
      release of the batches) starts where the source starts it, inside
      [apply]; as every future is taken to be available when it is awaited,
      it also runs to its end there, and a failure of its future is
      dropped with the future. The one wait that may find nothing to
      resume it is the wait on [_dispatch_sem]: a waiter short of permits
      stays in the gate [_req_bg].
    - [_requests_count] counts without wrap-around: its width is fixed by
      the class declaration, which is not part of this file's source. *)

From stdpp Require Import base decidable countable gmap list.
From Stdlib Require Import ZArith Lia.

Local Open Scope Z_scope.

(** ** Identifiers and plain data *)

(** [raft::vnode]: node id and revision. *)
Record vnode : Type := mk_vnode { vnode_id : Z; vnode_revision : Z }.

#[global] Instance vnode_eq_dec : EqDecision vnode.
Proof. solve_decision. Defined.

#[global] Instance vnode_countable : Countable vnode.
Proof.
  refine (inj_countable' (fun n => (vnode_id n, vnode_revision n))
                         (fun p => mk_vnode (fst p) (snd p)) _).
  intros []; reflexivity.
Defined.

(** The error codes of [raft::errc] that this file produces, and the two
    that a reply coming back from the RPC layer may carry. *)
Inductive errc : Type :=
  | append_entries_dispatch_error
  | replicated_entry_truncated
  | leader_flush_failed
  | leader_append_failed
  | shutting_down
  | invalid_target_node
  | errc_timeout.

#[global] Instance errc_eq_dec : EqDecision errc.
Proof. solve_decision. Defined.

(** [result<T>]: a value or an error code. *)
Inductive result (A : Type) : Type :=
  | ok (a : A)
  | err (e : errc).
Arguments ok {A} a.
Arguments err {A} e.

Definition has_error {A} (r : result A) : bool :=
  match r with ok _ => false | err _ => true end.

(** Exceptions that travel through failed futures. *)
Inductive exn : Type :=
  | bad_result_access (e : errc)
  | bad_optional_access
  | broken_condition_variable
  | gate_closed_exception
  | other_exception (tag : Z).

(** The state of a future once it is available. *)
Inductive fut (A : Type) : Type :=
  | resolved (a : A)
  | failed (e : exn).
Arguments resolved {A} a.
Arguments failed {A} e.

Inductive consistency_level : Type := quorum_ack | leader_ack | no_ack.

(** Modelled from the spec: [reply_result] is declared in raft/types.h,
    which is not among the sources; section 6 lists its values. *)
Inductive reply_result : Type :=
  | success | log_mismatch | group_unavailable | reply_timeout.

(** [storage::append_result], the two fields the round reads. *)
Record append_result : Type := mk_append_result {
  last_offset : Z;
  last_term : Z
}.

Record replicate_result : Type := mk_replicate_result {
  rr_last_offset : Z
}.

(** [protocol_metadata], the header of the round's request. *)
Record protocol_metadata : Type := mk_meta {
  meta_group : Z;
  meta_commit_index : Z;
  meta_term : Z;
  prev_log_index : Z;
  prev_log_term : Z
}.

Record append_entries_reply : Type := mk_reply {
  node_id : vnode;
  target_node_id : vnode;
  group : Z;
  term : Z;
  last_dirty_log_index : Z;
  last_flushed_log_index : Z;
  reply_res : reply_result
}.

(** A batch reader is opaque to the round; it stands for the batches it
    yields. *)
Definition record_batch_reader : Type := list Z.

Record append_entries_request : Type := mk_request {
  req_source : vnode;
  req_target : vnode;
  req_meta : protocol_metadata;
  req_batches : record_batch_reader;
  req_flush : bool
}.

(** [follower_index_metadata], the fields the round reads or writes. *)
Record follower_index_metadata : Type := mk_fmeta {
  is_learner : bool;
  last_received_reply_timestamp : Z;
  expected_log_end_offset : Z;
  last_sent_protocol_meta : option protocol_metadata
}.

Definition set_dispatched (dirty : Z) (m : protocol_metadata)
    (f : follower_index_metadata) : follower_index_metadata :=
  {| is_learner := is_learner f;
     last_received_reply_timestamp := last_received_reply_timestamp f;
     expected_log_end_offset := dirty;
     last_sent_protocol_meta := Some m |}.

(** ** The consensus object and the state machine *)

(** The fields of [consensus] that the round reads or writes through
    [_ptr]. [_log_term] is [_log->get_term]; [_config] is the sequence
    visited by [config().for_each_broker_id]; [_rest] stands for everything
    else the object owns (log contents, RPC and storage state), which only
    the collaborators read. *)
Record consensus : Type := mk_consensus {
  _self : vnode;
  _group : Z;
  _term : Z;
  _commit_index : Z;
  _last_quorum_replicated_index : Z;
  _visibility_upper_bound_index : Z;
  _last_write_consistency_level : consistency_level;
  _log_term : Z -> Z;
  _fstats : gmap vnode follower_index_metadata;
  _replicate_append_timeout : Z;
  _config : list vnode;
  _rest : Z
}.

Definition set_last_write_consistency_level (l : consistency_level)
    (c : consensus) : consensus :=
  mk_consensus (_self c) (_group c) (_term c) (_commit_index c)
    (_last_quorum_replicated_index c) (_visibility_upper_bound_index c)
    l (_log_term c) (_fstats c) (_replicate_append_timeout c) (_config c)
    (_rest c).

Definition set_visibility_upper_bound_index (v : Z) (c : consensus)
    : consensus :=
  mk_consensus (_self c) (_group c) (_term c) (_commit_index c)
    (_last_quorum_replicated_index c) v
    (_last_write_consistency_level c) (_log_term c) (_fstats c)
    (_replicate_append_timeout c) (_config c) (_rest c).

Definition set_fstats (m : gmap vnode follower_index_metadata)
    (c : consensus) : consensus :=
  mk_consensus (_self c) (_group c) (_term c) (_commit_index c)
    (_last_quorum_replicated_index c) (_visibility_upper_bound_index c)
    (_last_write_consistency_level c) (_log_term c) m
    (_replicate_append_timeout c) (_config c) (_rest c).

(** Modelled from the spec: the accessors [committed_offset()], [term()],
    [group()] and [self()] are declared in raft/consensus.h, which is not
    among the sources; sections 3 and 6 name what they return (the commit
    index, the current term, the group and the leader's own node). *)
Definition committed_offset (c : consensus) : Z := _commit_index c.
Definition current_term (c : consensus) : Z := _term c.
Definition self (c : consensus) : vnode := _self c.

(** Work that waits inside the gate [_req_bg]. *)
Inductive bg_task : Type :=
  | task_release_after_dispatch.

(** The fields of [replicate_entries_stm]. A heartbeat guard is [true]
    while it suppresses; [_dispatch_sem] is the semaphore's count;
    [_req_bg_closed] and [_req_bg_tasks] are the gate and what is left
    waiting in it. *)
Record stm : Type := mk_stm {
  _meta : protocol_metadata;
  _is_flush_required : bool;
  _batches : option record_batch_reader;
  _followers_seq : gmap vnode Z;
  _hb_guards : gmap vnode bool;
  _dispatch_sem : Z;
  _req_bg_closed : bool;
  _req_bg_tasks : list bg_task;
  _dirty_offset : Z;
  _initial_committed_offset : Z;
  _units : option (list Z);
  _append_result : option (result append_result);
  _requests_count : Z
}.

Definition set_batches (b : option record_batch_reader) (s : stm) : stm :=
  mk_stm (_meta s) (_is_flush_required s) b (_followers_seq s)
    (_hb_guards s) (_dispatch_sem s) (_req_bg_closed s) (_req_bg_tasks s)
    (_dirty_offset s) (_initial_committed_offset s) (_units s)
    (_append_result s) (_requests_count s).

Definition set_hb_guards (g : gmap vnode bool) (s : stm) : stm :=
  mk_stm (_meta s) (_is_flush_required s) (_batches s) (_followers_seq s)
    g (_dispatch_sem s) (_req_bg_closed s) (_req_bg_tasks s)
    (_dirty_offset s) (_initial_committed_offset s) (_units s)
    (_append_result s) (_requests_count s).

Definition set_dispatch_sem (n : Z) (s : stm) : stm :=
  mk_stm (_meta s) (_is_flush_required s) (_batches s) (_followers_seq s)
    (_hb_guards s) n (_req_bg_closed s) (_req_bg_tasks s)
    (_dirty_offset s) (_initial_committed_offset s) (_units s)
    (_append_result s) (_requests_count s).

Definition set_req_bg_closed (b : bool) (s : stm) : stm :=
  mk_stm (_meta s) (_is_flush_required s) (_batches s) (_followers_seq s)
    (_hb_guards s) (_dispatch_sem s) b (_req_bg_tasks s)
    (_dirty_offset s) (_initial_committed_offset s) (_units s)
    (_append_result s) (_requests_count s).

Definition set_req_bg_tasks (l : list bg_task) (s : stm) : stm :=
  mk_stm (_meta s) (_is_flush_required s) (_batches s) (_followers_seq s)
    (_hb_guards s) (_dispatch_sem s) (_req_bg_closed s) l
    (_dirty_offset s) (_initial_committed_offset s) (_units s)
    (_append_result s) (_requests_count s).

Definition set_dirty_offset (o : Z) (s : stm) : stm :=
  mk_stm (_meta s) (_is_flush_required s) (_batches s) (_followers_seq s)
    (_hb_guards s) (_dispatch_sem s) (_req_bg_closed s) (_req_bg_tasks s)
    o (_initial_committed_offset s) (_units s)
    (_append_result s) (_requests_count s).

Definition set_initial_committed_offset (o : Z) (s : stm) : stm :=
  mk_stm (_meta s) (_is_flush_required s) (_batches s) (_followers_seq s)
    (_hb_guards s) (_dispatch_sem s) (_req_bg_closed s) (_req_bg_tasks s)
    (_dirty_offset s) o (_units s)
    (_append_result s) (_requests_count s).

Definition set_units (u : option (list Z)) (s : stm) : stm :=
  mk_stm (_meta s) (_is_flush_required s) (_batches s) (_followers_seq s)
    (_hb_guards s) (_dispatch_sem s) (_req_bg_closed s) (_req_bg_tasks s)
    (_dirty_offset s) (_initial_committed_offset s) u
    (_append_result s) (_requests_count s).

Definition set_append_result (r : option (result append_result)) (s : stm)
    : stm :=
  mk_stm (_meta s) (_is_flush_required s) (_batches s) (_followers_seq s)
    (_hb_guards s) (_dispatch_sem s) (_req_bg_closed s) (_req_bg_tasks s)
    (_dirty_offset s) (_initial_committed_offset s) (_units s)
    r (_requests_count s).

Definition set_requests_count (n : Z) (s : stm) : stm :=
  mk_stm (_meta s) (_is_flush_required s) (_batches s) (_followers_seq s)
    (_hb_guards s) (_dispatch_sem s) (_req_bg_closed s) (_req_bg_tasks s)
    (_dirty_offset s) (_initial_committed_offset s) (_units s)
    (_append_result s) n.

(** ** Collaborators

    What the round calls but this file does not define. Operations on the
    consensus object transform it; an operation that returns a future also
    says how the future ends. The two futures that [share_batches] awaits
    belong to the state machine and to a free function; whether they
    resolve is up to the rest of the system, which the consensus record
    stands for. Every theorem below holds for all collaborators. *)
Record externals : Type := mk_externals {
  (** [follower_index_metadata::is_first_request] *)
  is_first_request : Z -> bool;
  (** the value of a value-initialised [model::offset] *)
  default_offset : Z;
  (** [_share_mutex.get_units()] *)
  share_mutex_get_units : consensus -> fut unit;
  (** [details::foreign_share_n(reader, 2)]: the vector of two readers,
      first and last *)
  foreign_share_n :
    record_batch_reader -> consensus ->
    fut (record_batch_reader * record_batch_reader);
  (** [consensus::disk_append(batches, update_last_quorum_index)] *)
  disk_append :
    record_batch_reader -> bool -> consensus -> fut append_result * consensus;
  maybe_update_majority_replicated_index : consensus -> consensus;
  (** [consensus::flush_log()], its result discarded *)
  consensus_flush_log : consensus -> fut unit * consensus;
  update_node_append_timestamp : vnode -> consensus -> consensus;
  (** [_fstats.get_append_entries_unit] and [return_append_entries_units] *)
  get_append_entries_unit : vnode -> consensus -> fut unit * consensus;
  return_append_entries_units : vnode -> consensus -> consensus;
  (** [_client_protocol.append_entries] *)
  client_append_entries :
    Z -> append_entries_request -> consensus ->
    fut (result append_entries_reply) * consensus;
  validate_reply_target_node :
    result append_entries_reply -> Z -> consensus ->
    result append_entries_reply;
  process_append_entries_reply :
    Z -> result append_entries_reply -> Z -> Z -> consensus -> consensus
}.

(** What a run leaves behind for an observer: collaborator calls in the
    order they are issued, and the signals of [_dispatch_sem]. *)
Inductive event : Type :=
  | ev_suppress_heartbeats (n : vnode)
  | ev_unsuppress (n : vnode)
  | ev_disk_append (update_last_quorum_index : bool)
  | ev_maybe_update_majority_replicated_index
  | ev_flush_log
  | ev_update_node_append_timestamp (n : vnode)
  | ev_get_append_entries_unit (n : vnode)
  | ev_append_entries (n : vnode) (flush : bool)
  | ev_return_append_entries_units (n : vnode)
  | ev_replicate_request_error
  | ev_process_append_entries_reply
      (id : Z) (reply : result append_entries_reply) (seq dirty : Z)
  | ev_dispatch_sem_signal.

Definition is_signal (e : event) : bool :=
  match e with ev_dispatch_sem_signal => true | _ => false end.

Definition is_flush (e : event) : bool :=
  match e with ev_flush_log => true | _ => false end.

Definition count_events (p : event -> bool) (l : list event) : nat :=
  length (filter (fun e => p e = true) l).

(** The round's world: the consensus object behind [_ptr], the state
    machine itself, the reading of [clock_type::now()], and the events so
    far. *)
Record world : Type := mk_world {
  w_ptr : consensus;
  w_this : stm;
  w_now : Z;
  w_events : list event
}.

Definition with_ptr (f : consensus -> consensus) (w : world) : world :=
  mk_world (f (w_ptr w)) (w_this w) (w_now w) (w_events w).
Definition with_this (f : stm -> stm) (w : world) : world :=
  mk_world (w_ptr w) (f (w_this w)) (w_now w) (w_events w).
Definition with_event (e : event) (w : world) : world :=
  mk_world (w_ptr w) (w_this w) (w_now w) (w_events w ++ [e]).

(** ** Outcomes and sequencing *)

(** How a call ends: it returns, its future fails with an exception, a
    [vassert] aborts the process, or it never resumes. *)
Inductive outcome (A : Type) : Type :=
  | Returned (a : A)
  | Threw (e : exn)
  | Aborted
  | Blocked.
Arguments Returned {A} a.
Arguments Threw {A} e.
Arguments Aborted {A}.
Arguments Blocked {A}.

Definition M (A : Type) : Type := world -> outcome A * world.

Definition ret {A} (a : A) : M A := fun w => (Returned a, w).

Definition bind {A B} (m : M A) (k : A -> M B) : M B :=
  fun w =>
    match m w with
    | (Returned a, w') => k a w'
    | (Threw e, w') => (Threw e, w')
    | (Aborted, w') => (Aborted, w')
    | (Blocked, w') => (Blocked, w')
    end.

Declare Scope M_scope.
Delimit Scope M_scope with M.
Notation "'let*' x := m 'in' k" := (bind m (fun x => k))
  (at level 10, x name, m at level 100, k at level 200) : M_scope.
Notation "'run' m 'in' k" := (bind m (fun _ => k))
  (at level 10, m at level 100, k at level 200) : M_scope.
Local Open Scope M_scope.

Definition gets {A} (f : world -> A) : M A := fun w => (Returned (f w), w).
Definition modify (f : world -> world) : M unit :=
  fun w => (Returned tt, f w).
Definition throw {A} (e : exn) : M A := fun w => (Threw e, w).
Definition abort {A} : M A := fun w => (Aborted, w).
Definition block {A} : M A := fun w => (Blocked, w).

Definition vassert (b : bool) : M unit := if b then ret tt else abort.

Definition emit (e : event) : M unit := modify (with_event e).

(** [f.handle_exception(h)] *)
Definition handle_exception {A} (m : M A) (h : exn -> M A) : M A :=
  fun w =>
    match m w with
    | (Threw e, w') => h e w'
    | r => r
    end.

(** [f.finally(g)]: [g] runs whether [f] resolved or failed, and the
    outcome of [f] is kept. *)
Definition finally {A} (m : M A) (g : M unit) : M A :=
  fun w =>
    match m w with
    | (Returned a, w') => (Returned a, snd (g w'))
    | (Threw e, w') => (Threw e, snd (g w'))
    | r => r
    end.

(** A collaborator is called: the call is recorded, the consensus object
    changes, and the future it returned is handed back unopened. *)
Definition issue {A} (e : event) (f : consensus -> fut A * consensus)
    : M (fut A) :=
  fun w =>
    let w1 := with_event e w in
    let '(r, c) := f (w_ptr w1) in
    (Returned r, with_ptr (fun _ => c) w1).

(** Waiting for a future: its value, or its exception. *)
Definition await {A} (f : fut A) : M A :=
  match f with
  | resolved a => ret a
  | failed e => throw e
  end.

Definition call {A} (e : event) (f : consensus -> fut A * consensus) : M A :=
  let* r := issue e f in await r.

Definition call_upd (e : event) (f : consensus -> consensus) : M unit :=
  run emit e in modify (with_ptr f).

Fixpoint for_each {A} (f : A -> M unit) (l : list A) : M unit :=
  match l with
  | [] => ret tt
  | x :: l' => run f x in for_each f l'
  end.

(** [result<T>::value()]: the value, and no return on an errored result
    (Outcome's policy for [std::error_code] raises an exception that
    carries the code). *)
Definition value {A} (r : result A) : M A :=
  match r with
  | ok a => ret a
  | err e => throw (bad_result_access e)
  end.

(** [std::optional::value()] *)
Definition opt_value {A} (o : option A) : M A :=
  match o with
  | Some a => ret a
  | None => throw bad_optional_access
  end.

(** [operator bool] of a [std::optional] *)
Definition has_value {A} (o : option A) : bool :=
  match o with Some _ => true | None => false end.

(** [absl::flat_hash_map::emplace]: the first entry for a key stays. *)
Definition emplace {V} (k : vnode) (v : V) (m : gmap vnode V)
    : gmap vnode V :=
  match m !! k with
  | Some _ => m
  | None => <[k := v]> m
  end.

(** ** The state machine *)

Definition this {A} (f : stm -> A) : M A := gets (fun w => f (w_this w)).
Definition ptr {A} (f : consensus -> A) : M A := gets (fun w => f (w_ptr w)).
Definition set_this (f : stm -> stm) : M unit := modify (with_this f).
Definition set_ptr (f : consensus -> consensus) : M unit :=
  modify (with_ptr f).

(** [_dispatch_sem.signal()] *)
Definition signal_dispatch_sem : M unit :=
  run emit ev_dispatch_sem_signal in
  set_this (fun s => set_dispatch_sem (_dispatch_sem s + 1) s).

(** [_hb_guards[n].unsuppress()]: [operator[]] creates a released guard
    where the map has none. *)
Definition unsuppress (n : vnode) : M unit :=
  run emit (ev_unsuppress n) in
  set_this (fun s => set_hb_guards (<[n := false]> (_hb_guards s)) s).

(** The constructor: the request's metadata, flush flag and batches, the
    caller's sequence map; semaphore at zero, gate open, nothing appended. *)
Definition replicate_entries_stm (X : externals) (r : append_entries_request)
    (seqs : gmap vnode Z) : stm :=
  {| _meta := req_meta r;
     _is_flush_required := req_flush r;
     _batches := Some (req_batches r);
     _followers_seq := seqs;
     _hb_guards := ∅;
     _dispatch_sem := 0;
     _req_bg_closed := false;
     _req_bg_tasks := [];
     _dirty_offset := default_offset X;
     _initial_committed_offset := default_offset X;
     _units := None;
     _append_result := None;
     _requests_count := 0 |}.

Section round.

Context (X : externals).

(** [share_batches]: under the mutex the reader of the holder is split
    in two; the last of the two goes back into the holder and the other to
    the caller. Either awaited future may fail, and so may
    [_batches.value()] on an empty holder. *)
Definition share_batches : M record_batch_reader :=
  let* u := (let* c := ptr (fun c => c) in
             await (share_mutex_get_units X c)) in
  let* holder := this _batches in
  let* reader := opt_value holder in
  let* readers := (let* c := ptr (fun c => c) in
                   await (foreign_share_n X reader c)) in
  run set_this (set_batches (Some (snd readers))) in
  ret (fst readers).

(** [flush_log] returns a future: the call itself requests the flush,
    chains the continuation that will build the reply, signals
    [_dispatch_sem] and returns; the continuation [f] runs when the flush
    has ended, in the world of that moment. *)
Definition flush_log : M (M (result append_entries_reply)) :=
  let* required := this _is_flush_required in
  let* flush_f :=
    (if required then issue ev_flush_log (consensus_flush_log X)
     else ret (resolved tt)) in
  let f :=
    handle_exception
      (run await flush_f in
       let* new_committed_offset := this _dirty_offset in
       let* me := ptr _self in
       let* g := ptr _group in
       let* t := ptr current_term in
       ret (ok {| node_id := me;
                  target_node_id := me;
                  group := g;
                  term := t;
                  last_dirty_log_index := new_committed_offset;
                  last_flushed_log_index := new_committed_offset;
                  reply_res := success |}))
      (fun _ => ret (err leader_flush_failed)) in
  run signal_dispatch_sem in
  ret f.

Definition send_append_entries_request (n : vnode)
    (batches : record_batch_reader) : M (result append_entries_reply) :=
  finally
    (handle_exception
       (run call_upd (ev_update_node_append_timestamp n)
              (update_node_append_timestamp X n) in
        let* f := issue (ev_get_append_entries_unit n)
                    (get_append_entries_unit X n) in
        match f with
        | failed _ =>
            run signal_dispatch_sem in
            ret (err append_entries_dispatch_error)
        | resolved u =>
            let* me := ptr self in
            let* m := this _meta in
            let* flush := this _is_flush_required in
            let* rpc :=
              issue (ev_append_entries n flush)
                (client_append_entries X (vnode_id n)
                   (mk_request me n m batches flush)) in
            run signal_dispatch_sem in
            finally
              (let* reply := await rpc in
               ptr (validate_reply_target_node X reply (vnode_id n)))
              (call_upd (ev_return_append_entries_units n)
                 (return_append_entries_units X n))
        end)
       (fun _ => ret (err append_entries_dispatch_error)))
    (unsuppress n).

Definition dispatch_single_retry (id : vnode)
    : M (result append_entries_reply) :=
  let* me := ptr _self in
  if decide (id = me) then
    let* f := flush_log in
    f
  else
    let* batches := share_batches in
    send_append_entries_request id batches.

(** The body that [dispatch_one] runs inside the gate. *)
Definition dispatch_one_body (id : vnode) : M unit :=
  let* reply := dispatch_single_retry id in
  let* me := ptr self in
  let* seq :=
    (if decide (id <> me) then
       let* seqs := this _followers_seq in
       match seqs !! id with
       | None => abort
       | Some s => ret s
       end
     else ret 0) in
  run (if has_error reply then emit ev_replicate_request_error
       else ret tt) in
  let* dirty := this _dirty_offset in
  call_upd (ev_process_append_entries_reply (vnode_id id) reply seq dirty)
    (process_append_entries_reply X (vnode_id id) reply seq dirty).

(** A function is invoked, and what it throws is captured in the future
    it returns. *)
Definition futurize {A} (m : M A) : M (fut A) :=
  fun w =>
    match m w with
    | (Returned a, w') => (Returned (resolved a), w')
    | (Threw e, w') => (Returned (failed e), w')
    | (Aborted, w') => (Aborted, w')
    | (Blocked, w') => (Blocked, w')
    end.

(** [ss::with_gate(g, func)]: the gate is entered first, and entering a
    closed gate throws out of [with_gate] itself; otherwise [func] is
    invoked and its future returned. *)
Definition with_gate {A} (func : M A) : M (fut A) :=
  let* closed := this _req_bg_closed in
  if closed then throw gate_closed_exception
  else futurize func.

(** [f.handle_exception_type([](const ss::gate_closed_exception&) {})] *)
Definition handle_gate_closed (f : fut unit) : fut unit :=
  match f with
  | failed gate_closed_exception => resolved tt
  | _ => f
  end.

Definition dispatch_one (id : vnode) : M (fut unit) :=
  let* f := with_gate (dispatch_one_body id) in
  ret (handle_gate_closed f).

Definition append_to_self : M (result append_result) :=
  handle_exception
    (let* batches := share_batches in
     let* required := this _is_flush_required in
     run set_ptr (set_last_write_consistency_level
                    (if required then quorum_ack else leader_ack)) in
     let* res := call (ev_disk_append required)
                   (disk_append X batches required) in
     let* commit_index := ptr _commit_index in
     let* last_quorum := ptr _last_quorum_replicated_index in
     run (if commit_index >=? last_quorum then
            run set_ptr (fun c =>
                  set_visibility_upper_bound_index
                    (Z.max (_visibility_upper_bound_index c)
                       (last_offset res)) c) in
            call_upd ev_maybe_update_majority_replicated_index
              (maybe_update_majority_replicated_index X)
          else ret tt) in
     ret (ok res))
    (fun _ => ret (err leader_append_failed)).

Definition should_skip_follower_request (id : vnode) : M bool :=
  let* fstats := ptr _fstats in
  match fstats !! id with
  | Some f_meta =>
      let* seqs := this _followers_seq in
      match seqs !! id with
      | None => abort
      | Some seq =>
          if negb (is_learner f_meta) && is_first_request X seq then
            ret false
          else
            let* now := gets w_now in
            let* append_timeout := ptr _replicate_append_timeout in
            let timeout := now - append_timeout in
            if last_received_reply_timestamp f_meta <? timeout then
              ret true
            else
              let* m := this _meta in
              if negb (expected_log_end_offset f_meta =? prev_log_index m)
              then ret true
              else ret false
      end
  | None => ret false
  end.

Definition build_replicate_result : M (result replicate_result) :=
  let* r := this _append_result in
  match r with
  | None => abort
  | Some (err e) => ret (err e)
  | Some (ok a) => ret (ok {| rr_last_offset := last_offset a |})
  end.

(** The function that [apply] spawns last: take [_requests_count] units
    from [_dispatch_sem], then drop the batches and the units. *)
Definition release_after_dispatch : M unit :=
  let* n := this _requests_count in
  let* available := this _dispatch_sem in
  if available <? n then block
  else
    run set_this (set_dispatch_sem (available - n)) in
    run set_this (set_batches None) in
    set_this (set_units None).

(** Modelled from the spec: [ssx::spawn_with_gate] is declared in
    ssx/future-util.h, which is not among the sources; section 5 has new
    background work swallowed quietly by a closed gate. With the gate
    open the function starts at once; a function that cannot go on stays
    in the gate, and a failure of its future is dropped. *)
Definition spawn_with_gate (t : bg_task) (func : M unit) : M unit :=
  let* closed := this _req_bg_closed in
  if closed then ret tt
  else
    fun w =>
      match func w with
      | (Blocked, w') =>
          (Returned tt,
           with_this (fun s => set_req_bg_tasks (_req_bg_tasks s ++ [t]) s)
             w')
      | (Threw _, w') => (Returned tt, w')
      | r => r
      end.

(** The first lambda of [apply]: suppress the heartbeats of a follower. *)
Definition suppress_follower_heartbeats (rni : vnode) : M unit :=
  let* me := ptr _self in
  if decide (rni <> me) then
    run emit (ev_suppress_heartbeats rni) in
    set_this (fun s => set_hb_guards (emplace rni true (_hb_guards s)) s)
  else ret tt.

(** The second lambda of [apply]: skip the peer, or count it and start
    its dispatch. *)
Definition dispatch_unless_skipped (rni : vnode) : M unit :=
  let* skip := should_skip_follower_request rni in
  if skip then unsuppress rni
  else
    let* me := ptr self in
    run (if decide (rni <> me) then
           let* fstats := ptr _fstats in
           match fstats !! rni with
           | Some f =>
               let* dirty := this _dirty_offset in
               let* m := this _meta in
               set_ptr (set_fstats
                          (<[rni := set_dispatched dirty m f]> fstats))
           | None => ret tt
           end
         else ret tt) in
    run set_this (fun s => set_requests_count (_requests_count s + 1) s) in
    run dispatch_one rni in
    ret tt.

Definition apply (u : list Z) : M (result replicate_result) :=
  let* cfg := ptr _config in
  run for_each suppress_follower_heartbeats cfg in
  run set_this (set_units (Some u)) in
  let* appended := append_to_self in
  run set_this (set_append_result (Some appended)) in
  let* stored := this _append_result in
  if negb (has_value stored) then build_replicate_result
  else
    let* stored_result := opt_value stored in
    let* res := value stored_result in
    run set_this (set_dirty_offset (last_offset res)) in
    let* committed := ptr committed_offset in
    run set_this (set_initial_committed_offset committed) in
    run for_each dispatch_unless_skipped cfg in
    run spawn_with_gate task_release_after_dispatch
          release_after_dispatch in
    build_replicate_result.

(** What the waiter on [_commit_index_updated] sees: a signal, at which
    the consensus object has become [c], or the variable being broken. *)
Inductive cv_event : Type :=
  | cv_signalled (c : consensus)
  | cv_broken.

(** [condition_variable::wait(pred)]: the predicate is tried first and
    after every signal; a broken variable throws; a waiter that is never
    woken with its predicate true does not resume. *)
Fixpoint cv_wait (pred : world -> bool) (evs : list cv_event) : M unit :=
  fun w =>
    if pred w then (Returned tt, w)
    else
      match evs with
      | [] => (Blocked, w)
      | cv_broken :: _ => (Threw broken_condition_variable, w)
      | cv_signalled c :: evs' => cv_wait pred evs' (with_ptr (fun _ => c) w)
      end.

(** The lambda [stop_cond] of [wait_for_majority]. *)
Definition stop_cond (appended_offset appended_term : Z) (w : world) : bool :=
  let current_committed_offset := committed_offset (w_ptr w) in
  let committed := current_committed_offset >=? appended_offset in
  let truncated :=
    (current_term (w_ptr w) >? appended_term)
    && (current_committed_offset >? _initial_committed_offset (w_this w))
    && negb (_log_term (w_ptr w) appended_offset =? appended_term) in
  committed || truncated.

Definition process_result (appended_offset appended_term : Z)
    : M (result replicate_result) :=
  let* now_term := ptr current_term in
  let* truncated :=
    (if negb (appended_term =? now_term) then
       let* current_term := ptr (fun c => _log_term c appended_offset) in
       ret (negb (current_term =? appended_term))
     else ret false) in
  if truncated then ret (err replicated_entry_truncated)
  else
    let* commit_index := ptr _commit_index in
    run vassert (appended_offset <=? commit_index) in
    build_replicate_result.

(** [wait_for_majority], given what the waiter will see. In the model
    [process_result] reads the state that ended the wait. *)
Definition wait_for_majority (evs : list cv_event)
    : M (result replicate_result) :=
  let* stored := this _append_result in
  if negb (has_value stored) then build_replicate_result
  else
    let* stored_result := opt_value stored in
    let* res := value stored_result in
    let appended_offset := last_offset res in
    let appended_term := last_term res in
    handle_exception
      (run cv_wait (stop_cond appended_offset appended_term) evs in
       process_result appended_offset appended_term)
      (fun e => match e with
                | broken_condition_variable => ret (err shutting_down)
                | _ => throw e
                end).

End round.

(** The predicate of the commit wait as the specification words it. *)
Definition spec_stop_cond (appended_offset appended_term : Z) (w : world)
    : Prop :=
  committed_offset (w_ptr w) >= appended_offset
  \/ (current_term (w_ptr w) > appended_term
      /\ committed_offset (w_ptr w) > _initial_committed_offset (w_this w)
      /\ _log_term (w_ptr w) appended_offset <> appended_term).

(** The reply of the leader's own slot as the specification describes
    it: the leader's node twice, the group, the current term, the dirty
    offset twice, and success. *)
Definition self_reply (w : world) : append_entries_reply :=
  {| node_id := _self (w_ptr w);
     target_node_id := _self (w_ptr w);
     group := _group (w_ptr w);
     term := current_term (w_ptr w);
     last_dirty_log_index := _dirty_offset (w_this w);
     last_flushed_log_index := _dirty_offset (w_this w);
     reply_res := success |}.

(** The state in which a wait on the condition variable ends. *)
Inductive wait_end : Type :=
  | woken (w : world)
  | broken (w : world)
  | asleep (w : world).

Fixpoint wait_end_of (pred : world -> bool) (evs : list cv_event) (w : world)
    : wait_end :=
  if pred w then woken w
  else
    match evs with
    | [] => asleep w
    | cv_broken :: _ => broken w
    | cv_signalled c :: evs' => wait_end_of pred evs' (with_ptr (fun _ => c) w)
    end.

(** ** Sample collaborators and rounds *)

Definition n1 : vnode := mk_vnode 1 0.
Definition n2 : vnode := mk_vnode 2 0.
Definition n3 : vnode := mk_vnode 3 0.

Definition sample_reply (from : vnode) (c : consensus) : append_entries_reply :=
  {| node_id := from; target_node_id := _self c; group := _group c;
     term := _term c; last_dirty_log_index := 42;
     last_flushed_log_index := 42; reply_res := success |}.

(** Collaborators for which everything works: the append ends at offset 42
    in the current term, flushes and RPCs succeed. The first request of a
    follower carries sequence 0. *)
Definition healthy : externals :=
  {| is_first_request := fun seq => seq =? 0;
     default_offset := -1;
     share_mutex_get_units := fun _ => resolved tt;
     foreign_share_n := fun r _ => resolved (r, r);
     disk_append := fun _ _ c => (resolved (mk_append_result 42 (_term c)), c);
     maybe_update_majority_replicated_index := fun c => c;
     consensus_flush_log := fun c => (resolved tt, c);
     update_node_append_timestamp := fun _ c => c;
     get_append_entries_unit := fun _ c => (resolved tt, c);
     return_append_entries_units := fun _ c => c;
     client_append_entries := fun id _ c =>
       (resolved (ok (sample_reply (mk_vnode id 0) c)), c);
     validate_reply_target_node := fun r _ _ => r;
     process_append_entries_reply := fun _ _ _ _ c => c |}.

(** Collaborators for which the batches can be shared and everything
    else fails: the disk append and the flush throw, no append-entries unit
    can be taken, the RPC throws. *)
Definition failing : externals :=
  {| is_first_request := fun seq => seq =? 0;
     default_offset := -1;
     share_mutex_get_units := fun _ => resolved tt;
     foreign_share_n := fun r _ => resolved (r, r);
     disk_append := fun _ _ c => (failed (other_exception 5), c);
     maybe_update_majority_replicated_index := fun c => c;
     consensus_flush_log := fun c => (failed (other_exception 6), c);
     update_node_append_timestamp := fun _ c => c;
     get_append_entries_unit := fun _ c => (failed (other_exception 7), c);
     return_append_entries_units := fun _ c => c;
     client_append_entries := fun _ _ c => (failed (other_exception 8), c);
     validate_reply_target_node := fun r _ _ => r;
     process_append_entries_reply := fun _ _ _ _ c => c |}.

Definition sample_stats : gmap vnode follower_index_metadata :=
  <[n2 := mk_fmeta false 100 17 None]>
  (<[n3 := mk_fmeta true 100 39 None]> ∅).

(** A leader [n1] of a three-node group in term 5, committed up to 39, at
    clock reading 1000 with an append timeout of 100. Follower [n2] is a
    voter and [n3] a learner; both were last heard from at 100, and neither
    has been sent a request yet. *)
Definition sample_consensus : consensus :=
  {| _self := n1; _group := 7; _term := 5; _commit_index := 39;
     _last_quorum_replicated_index := 39;
     _visibility_upper_bound_index := 39;
     _last_write_consistency_level := no_ack;
     _log_term := fun _ => 5;
     _fstats := sample_stats;
     _replicate_append_timeout := 100;
     _config := [n1; n2; n3];
     _rest := 0 |}.

Definition sample_request : append_entries_request :=
  {| req_source := n1; req_target := n1;
     req_meta := mk_meta 7 39 5 39 5;
     req_batches := [40; 41; 42];
     req_flush := true |}.

Definition sample_seqs : gmap vnode Z := <[n2 := 0]> (<[n3 := 0]> ∅).

Definition sample_world (X : externals) : world :=
  {| w_ptr := sample_consensus;
     w_this := replicate_entries_stm X sample_request sample_seqs;
     w_now := 1000;
     w_events := [] |}.

(** The sample round after a self append that ended at offset 42 in
    term 5, with the commit index still at 39. *)
Definition appended_world : world :=
  with_this (fun s =>
    set_initial_committed_offset 39
      (set_dirty_offset 42
         (set_append_result (Some (ok (mk_append_result 42 5))) s)))
    (sample_world healthy).

(** Scenario 5 of the specification: appended in term 5 at offset 100;
    the waiter is woken in term 7 with term 7 at offset 100. *)
Definition scenario5_world : world :=
  with_this (fun s =>
    set_initial_committed_offset 39
      (set_dirty_offset 100
         (set_append_result (Some (ok (mk_append_result 100 5))) s)))
    (sample_world healthy).

Definition committed_at (ci t : Z) (lt : Z -> Z) (c : consensus) : consensus :=
  mk_consensus (_self c) (_group c) t ci
    (_last_quorum_replicated_index c) (_visibility_upper_bound_index c)
    (_last_write_consistency_level c) lt (_fstats c)
    (_replicate_append_timeout c) (_config c) (_rest c).

Definition with_rest (r : Z) (c : consensus) : consensus :=
  mk_consensus (_self c) (_group c) (_term c) (_commit_index c)
    (_last_quorum_replicated_index c) (_visibility_upper_bound_index c)
    (_last_write_consistency_level c) (_log_term c) (_fstats c)
    (_replicate_append_timeout c) (_config c) r.

(** Collaborators for which everything works but the copying of the
    batches once the leader has appended them: the disk append leaves a
    mark, and [foreign_share_n] fails from then on. *)
Definition share_failing : externals :=
  {| is_first_request := fun seq => seq =? 0;
     default_offset := -1;
     share_mutex_get_units := fun _ => resolved tt;
     foreign_share_n := fun r c =>
       if _rest c =? 0 then resolved (r, r) else failed (other_exception 9);
     disk_append := fun _ _ c =>
       (resolved (mk_append_result 42 (_term c)), with_rest 1 c);
     maybe_update_majority_replicated_index := fun c => c;
     consensus_flush_log := fun c => (resolved tt, c);
     update_node_append_timestamp := fun _ c => c;
     get_append_entries_unit := fun _ c => (resolved tt, c);
     return_append_entries_units := fun _ c => c;
     client_append_entries := fun id _ c =>
       (resolved (ok (sample_reply (mk_vnode id 0) c)), c);
     validate_reply_target_node := fun r _ _ => r;
     process_append_entries_reply := fun _ _ _ _ c => c |}.

(** ** Observations for the further properties *)

Definition is_majority_update (e : event) : bool :=
  match e with
  | ev_maybe_update_majority_replicated_index => true
  | _ => false
  end.

(** The same world at another reading of the clock. *)
Definition at_time (now : Z) (w : world) : world :=
  mk_world (w_ptr w) (w_this w) now (w_events w).

(** The sample round once its batches have been dropped. *)
Definition released_world : world :=
  with_this (set_batches None) (sample_world healthy).

(** The sample round with a follower [n2] whose sequence number the caller
    did not supply. *)
Definition unsequenced_world : world :=
  with_this (fun s =>
    mk_stm (_meta s) (_is_flush_required s) (_batches s) ∅
      (_hb_guards s) (_dispatch_sem s) (_req_bg_closed s) (_req_bg_tasks s)
      (_dirty_offset s) (_initial_committed_offset s) (_units s)
      (_append_result s) (_requests_count s))
    (sample_world healthy).


(** What the dispatch loop of [apply] may have done to a round between
    two of its states: [n] more peers counted, [k] more permits, each of
    them with its signal. The holder, once engaged, stays engaged; the
    gate, the units and what the self append left are not touched. *)
Record advanced (n k : nat) (w w' : world) : Prop := mk_advanced {
  adv_requests_count :
    _requests_count (w_this w') = _requests_count (w_this w) + Z.of_nat n;
  adv_dispatch_sem :
    _dispatch_sem (w_this w') = _dispatch_sem (w_this w) + Z.of_nat k;
  adv_signals :
    count_events is_signal (w_events w')
    = (count_events is_signal (w_events w) + k)%nat;
  adv_batches :
    has_value (_batches (w_this w)) = true ->
    has_value (_batches (w_this w')) = true;
  adv_req_bg_closed :
    _req_bg_closed (w_this w') = _req_bg_closed (w_this w);
  adv_req_bg_tasks : _req_bg_tasks (w_this w') = _req_bg_tasks (w_this w);
  adv_units : _units (w_this w') = _units (w_this w);
  adv_append_result :
    _append_result (w_this w') = _append_result (w_this w);
  adv_dirty_offset : _dirty_offset (w_this w') = _dirty_offset (w_this w)
}.
(** ** Reasoning about runs *)

Ltac unfold_M :=
  unfold call_upd, call, issue, await, emit, set_this, set_ptr, ptr, this,
    vassert, value, opt_value, handle_exception, finally, bind, gets,
    modify, ret, throw, abort, block in *.

Ltac unfold_setters :=
  unfold set_batches, set_hb_guards, set_dispatch_sem, set_req_bg_closed,
    set_req_bg_tasks, set_dirty_offset, set_initial_committed_offset,
    set_units, set_append_result, set_requests_count.

(** Two states of the machine are equal when their fields are. *)
Lemma stm_ext (s1 s2 : stm) :
  _meta s1 = _meta s2 ->
  _is_flush_required s1 = _is_flush_required s2 ->
  _batches s1 = _batches s2 ->
  _followers_seq s1 = _followers_seq s2 ->
  _hb_guards s1 = _hb_guards s2 ->
  _dispatch_sem s1 = _dispatch_sem s2 ->
  _req_bg_closed s1 = _req_bg_closed s2 ->
  _req_bg_tasks s1 = _req_bg_tasks s2 ->
  _dirty_offset s1 = _dirty_offset s2 ->
  _initial_committed_offset s1 = _initial_committed_offset s2 ->
  _units s1 = _units s2 ->
  _append_result s1 = _append_result s2 ->
  _requests_count s1 = _requests_count s2 ->
  s1 = s2.
Proof. destruct s1, s2; simpl; intros; subst; reflexivity. Qed.

Lemma world_ext (w1 w2 : world) :
  w_ptr w1 = w_ptr w2 -> w_this w1 = w_this w2 -> w_now w1 = w_now w2 ->
  w_events w1 = w_events w2 -> w1 = w2.
Proof. destruct w1, w2; simpl; intros; subst; reflexivity. Qed.

Ltac stm_fields :=
  cbn [_meta _is_flush_required _batches _followers_seq _hb_guards
       _dispatch_sem _req_bg_closed _req_bg_tasks _dirty_offset
       _initial_committed_offset _units _append_result _requests_count
       set_batches set_hb_guards set_dispatch_sem set_req_bg_closed
       set_req_bg_tasks set_dirty_offset set_initial_committed_offset
       set_units set_append_result set_requests_count].

Ltac same_stm :=
  apply stm_ext; stm_fields; cbn [length];
  first [reflexivity | lia
        | rewrite <- ?app_assoc, ?app_nil_r; reflexivity].

Ltac norm_world :=
  cbv beta iota; cbn [fst snd w_this w_ptr w_now w_events].

(** *** The skip policy *)

(** The policy only reads: the world is left as it was. *)
Lemma should_skip_follower_request_reads (X : externals) (id : vnode)
    (w : world) :
  snd (should_skip_follower_request X id w) = w.
Proof.
  unfold should_skip_follower_request. unfold_M. simpl.
  destruct (_fstats (w_ptr w) !! id) as [f|]; [|reflexivity].
  destruct (_followers_seq (w_this w) !! id) as [seq|]; [|reflexivity].
  destruct (negb (is_learner f) && is_first_request X seq); [reflexivity|].
  destruct (last_received_reply_timestamp f
            <? w_now w - _replicate_append_timeout (w_ptr w));
    [reflexivity|].
  destruct (negb (expected_log_end_offset f
                  =? prev_log_index (_meta (w_this w))));
    reflexivity.
Qed.

(** What the policy answers for a peer of the stats table whose sequence
    number is known. *)
Lemma should_skip_follower_request_found (X : externals) (id : vnode)
    (w : world) (f : follower_index_metadata) (seq : Z) :
  _fstats (w_ptr w) !! id = Some f ->
  _followers_seq (w_this w) !! id = Some seq ->
  fst (should_skip_follower_request X id w)
  = Returned
      (negb ((negb (is_learner f) && is_first_request X seq)
             || (negb (last_received_reply_timestamp f
                       <? w_now w - _replicate_append_timeout (w_ptr w))
                 && (expected_log_end_offset f
                     =? prev_log_index (_meta (w_this w)))))).
Proof.
  intros Hf Hs. unfold should_skip_follower_request. unfold_M. simpl.
  rewrite Hf, Hs.
  destruct (negb (is_learner f) && is_first_request X seq); [reflexivity|].
  destruct (last_received_reply_timestamp f
            <? w_now w - _replicate_append_timeout (w_ptr w));
    [reflexivity|].
  destruct (expected_log_end_offset f =? prev_log_index (_meta (w_this w)));
    reflexivity.
Qed.

Lemma should_skip_follower_request_not_found (X : externals) (id : vnode)
    (w : world) :
  _fstats (w_ptr w) !! id = None ->
  fst (should_skip_follower_request X id w) = Returned false.
Proof.
  intros Hf. unfold should_skip_follower_request. unfold_M. simpl.
  rewrite Hf. reflexivity.
Qed.

Lemma should_skip_follower_request_no_seq (X : externals) (id : vnode)
    (w : world) (f : follower_index_metadata) :
  _fstats (w_ptr w) !! id = Some f ->
  _followers_seq (w_this w) !! id = None ->
  fst (should_skip_follower_request X id w) = Aborted.
Proof.
  intros Hf Hs. unfold should_skip_follower_request. unfold_M. simpl.
  rewrite Hf, Hs. reflexivity.
Qed.

(** C2, as the specification words it, fails: [n3] is in the stats table,
    is a learner, and its sequence number marks a first request, yet the
    request to it is skipped, because its last reply (at 100) is older than
    the append timeout allows (1000 - 100). The test for a learner comes
    first in the source, so what [is_first_request] answers plays no part
    in this. *)
Lemma learner_first_request_skipped :
  _fstats (w_ptr (sample_world healthy)) !! n3
    = Some (mk_fmeta true 100 39 None)
  /\ _followers_seq (w_this (sample_world healthy)) !! n3 = Some 0
  /\ is_first_request healthy 0 = true
  /\ fst (should_skip_follower_request healthy n3 (sample_world healthy))
     = Returned true.
Proof. vm_compute. repeat split; reflexivity. Qed.

(** C2, amended: for a peer of the stats table with a sequence number on
    record, a voter (not a learner) on its first request is always sent
    the request, whatever its last reply time and expected log end are; a
    learner has no such bypass, the two checks alone decide for it. *)
Theorem voter_first_request_is_sent (X : externals) (id : vnode) (w : world)
    (f : follower_index_metadata) (seq : Z) :
  _fstats (w_ptr w) !! id = Some f ->
  _followers_seq (w_this w) !! id = Some seq ->
  (is_learner f = false -> is_first_request X seq = true ->
     should_skip_follower_request X id w = (Returned false, w))
  /\ (is_learner f = true ->
        fst (should_skip_follower_request X id w)
        = Returned
            (negb (negb (last_received_reply_timestamp f
                         <? w_now w - _replicate_append_timeout (w_ptr w))
                   && (expected_log_end_offset f
                       =? prev_log_index (_meta (w_this w)))))).
Proof.
  intros Hf Hs. split.
  - intros Hl Hfirst.
    rewrite (surjective_pairing (should_skip_follower_request X id w)).
    rewrite should_skip_follower_request_reads.
    rewrite (should_skip_follower_request_found X id w f seq Hf Hs).
    rewrite Hl, Hfirst. reflexivity.
  - intros Hl.
    rewrite (should_skip_follower_request_found X id w f seq Hf Hs).
    rewrite Hl. reflexivity.
Qed.

Lemma voter_first_request_is_sent_witness :
  should_skip_follower_request healthy n2 (sample_world healthy)
  = (Returned false, sample_world healthy).
Proof.
  apply (proj1 (voter_first_request_is_sent healthy n2 (sample_world healthy)
                  (mk_fmeta false 100 17 None) 0
                  ltac:(vm_compute; reflexivity)
                  ltac:(vm_compute; reflexivity)));
    reflexivity.
Defined.

(** C3, as the specification words it, fails: the leader [n1] is not in
    the stats table, and the request for its slot is sent, not skipped. *)
Lemma peer_outside_stats_is_sent :
  _fstats (w_ptr (sample_world healthy)) !! n1 = None
  /\ fst (should_skip_follower_request healthy n1 (sample_world healthy))
     = Returned false.
Proof. vm_compute. split; reflexivity. Qed.

(** C3, amended: the request is sent exactly when the peer is not in the
    stats table, or it is there, its sequence number is on record, and
    either it is a voter on its first request or its last reply is no older
    than the append timeout and its expected log end is the request's
    previous log index. In particular every peer outside the table is
    sent the request. *)
Theorem should_skip_follower_request_sends_iff (X : externals) (id : vnode)
    (w : world) :
  fst (should_skip_follower_request X id w) = Returned false
  <-> (_fstats (w_ptr w) !! id = None
       \/ exists f seq,
            _fstats (w_ptr w) !! id = Some f
            /\ _followers_seq (w_this w) !! id = Some seq
            /\ ((is_learner f = false /\ is_first_request X seq = true)
                \/ (w_now w - _replicate_append_timeout (w_ptr w)
                      <= last_received_reply_timestamp f
                    /\ expected_log_end_offset f
                       = prev_log_index (_meta (w_this w))))).
Proof.
  destruct (_fstats (w_ptr w) !! id) as [f|] eqn:Hf.
  - destruct (_followers_seq (w_this w) !! id) as [seq|] eqn:Hs.
    + rewrite (should_skip_follower_request_found X id w f seq Hf Hs).
      split.
      * intros H. right. exists f, seq. repeat split.
        injection H as H. apply negb_false_iff in H.
        apply orb_true_iff in H. destruct H as [H|H].
        -- left. apply andb_true_iff in H. destruct H as [H1 H2].
           apply negb_true_iff in H1. auto.
        -- right. apply andb_true_iff in H. destruct H as [H1 H2].
           apply negb_true_iff in H1. apply Z.ltb_ge in H1.
           apply Z.eqb_eq in H2. auto.
      * intros [H|(f' & seq' & Hf' & Hs' & H)]; [discriminate|].
        injection Hf' as <-. injection Hs' as <-.
        f_equal. apply negb_false_iff. apply orb_true_iff.
        destruct H as [[H1 H2]|[H1 H2]].
        -- left. rewrite H1, H2. reflexivity.
        -- right. apply andb_true_iff. split.
           ++ apply negb_true_iff. apply Z.ltb_ge. exact H1.
           ++ apply Z.eqb_eq. exact H2.
    + rewrite (should_skip_follower_request_no_seq X id w f Hf Hs).
      split; [discriminate|].
      intros [H|(f' & seq' & _ & Hs' & _)]; discriminate.
  - rewrite (should_skip_follower_request_not_found X id w Hf).
    split; auto.
Qed.

(** *** The commit wait *)

Lemma with_ptr_same (w : world) : with_ptr (fun _ => w_ptr w) w = w.
Proof. destruct w; reflexivity. Qed.

(** [cv_wait] ends as [wait_end_of] says. *)
Lemma cv_wait_end (pred : world -> bool) (evs : list cv_event) (w : world) :
  cv_wait pred evs w
  = match wait_end_of pred evs w with
    | woken w' => (Returned tt, w')
    | broken w' => (Threw broken_condition_variable, w')
    | asleep w' => (Blocked, w')
    end.
Proof.
  revert w. induction evs as [|e evs IH]; intros w; simpl.
  - destruct (pred w); reflexivity.
  - destruct (pred w); [reflexivity|].
    destruct e as [c|]; [apply IH | reflexivity].
Qed.

(** A waiter resumes only in a state that satisfies its predicate, and
    waiting changes nothing of the state machine itself. *)
Lemma wait_end_of_woken (pred : world -> bool) (evs : list cv_event)
    (w w' : world) :
  wait_end_of pred evs w = woken w' ->
  pred w' = true /\ w_this w' = w_this w.
Proof.
  revert w. induction evs as [|e evs IH]; intros w; simpl.
  - destruct (pred w) eqn:Hp; [|discriminate].
    intros H. injection H as <-. auto.
  - destruct (pred w) eqn:Hp.
    + intros H. injection H as <-. auto.
    + destruct e as [c|]; [|discriminate].
      intros H. apply IH in H. exact H.
Qed.

Lemma wait_end_of_this (pred : world -> bool) (evs : list cv_event)
    (w : world) :
  match wait_end_of pred evs w with
  | woken w' | broken w' | asleep w' => w_this w' = w_this w
  end.
Proof.
  revert w. induction evs as [|e evs IH]; intros w; simpl.
  - destruct (pred w); reflexivity.
  - destruct (pred w); [reflexivity|].
    destruct e as [c|]; [apply (IH (with_ptr (fun _ => c) w)) | reflexivity].
Qed.

Lemma last_cons_default {A} (l : list A) (a d : A) :
  List.last (a :: l) d = List.last l a.
Proof.
  revert a d. induction l as [|b l IH]; intros a d; [reflexivity|].
  change (List.last (a :: b :: l) d) with (List.last (b :: l) d).
  rewrite (IH b d), (IH b a). reflexivity.
Qed.

(** The states a waiter passes through without resuming. *)
Lemma wait_end_of_signals (pred : world -> bool) (cs : list consensus)
    (rest : list cv_event) (w : world) :
  Forall (fun c => pred (with_ptr (fun _ => c) w) = false) (w_ptr w :: cs) ->
  wait_end_of pred (map cv_signalled cs ++ rest) w
  = wait_end_of pred rest
      (with_ptr (fun _ => List.last cs (w_ptr w)) w)
  /\ pred (with_ptr (fun _ => List.last cs (w_ptr w)) w) = false.
Proof.
  revert w. induction cs as [|c cs IH]; intros w H.
  - simpl. rewrite with_ptr_same. inversion H as [|? ? H0 _]; subst.
    rewrite with_ptr_same in H0. auto.
  - inversion H as [|? ? H0 H1]; subst.
    rewrite with_ptr_same in H0.
    cbn [map app wait_end_of]. rewrite H0.
    specialize (IH (with_ptr (fun _ => c) w)).
    assert (Hw : forall c', with_ptr (fun _ => c') (with_ptr (fun _ => c) w)
                            = with_ptr (fun _ => c') w) by reflexivity.
    rewrite last_cons_default.
    destruct IH as [IH1 IH2].
    + constructor.
      * rewrite Hw. inversion H1; subst; assumption.
      * inversion H1 as [|? ? _ H3]; subst.
        eapply Forall_impl; [exact H3|].
        intros c' Hc'. rewrite Hw. exact Hc'.
    + simpl in IH1, IH2. rewrite Hw in IH1, IH2. split; assumption.
Qed.

(** The lambda of the source is the predicate of the specification. *)
Lemma stop_cond_spec (appended_offset appended_term : Z) (w : world) :
  stop_cond appended_offset appended_term w = true
  <-> spec_stop_cond appended_offset appended_term w.
Proof.
  unfold stop_cond, spec_stop_cond.
  rewrite orb_true_iff, !andb_true_iff, negb_true_iff, Z.eqb_neq.
  rewrite Z.geb_le, !Z.gtb_lt. lia.
Qed.

Lemma stop_cond_false (appended_offset appended_term : Z) (w : world) :
  stop_cond appended_offset appended_term w = false
  <-> ~ spec_stop_cond appended_offset appended_term w.
Proof.
  rewrite <- stop_cond_spec.
  destruct (stop_cond appended_offset appended_term w); split;
    congruence.
Qed.

(** [process_result] on a round whose self append succeeded: the
    truncation check, then the assertion, then the result. *)
Lemma process_result_run (ar : append_result) (appended_term : Z)
    (w : world) :
  _append_result (w_this w) = Some (ok ar) ->
  process_result (last_offset ar) appended_term w
  = (if negb (appended_term =? current_term (w_ptr w))
        && negb (_log_term (w_ptr w) (last_offset ar) =? appended_term)
     then Returned (err replicated_entry_truncated)
     else if last_offset ar <=? _commit_index (w_ptr w)
          then Returned (ok {| rr_last_offset := last_offset ar |})
          else Aborted,
     w).
Proof.
  intros Har. unfold process_result, build_replicate_result. unfold_M.
  simpl.
  destruct (negb (appended_term =? current_term (w_ptr w))); simpl.
  - destruct (negb (_log_term (w_ptr w) (last_offset ar) =? appended_term));
      simpl; [reflexivity|].
    destruct (last_offset ar <=? _commit_index (w_ptr w)); simpl;
      [rewrite Har|]; reflexivity.
  - destruct (last_offset ar <=? _commit_index (w_ptr w)); simpl;
      [rewrite Har|]; reflexivity.
Qed.

(** [wait_for_majority] after a successful self append: it sleeps, is
    told of the shutdown, or runs [process_result] in the state that woke
    it. *)
Lemma wait_for_majority_run (ar : append_result) (evs : list cv_event)
    (w : world) :
  _append_result (w_this w) = Some (ok ar) ->
  wait_for_majority evs w
  = match wait_end_of (stop_cond (last_offset ar) (last_term ar)) evs w with
    | woken w' => process_result (last_offset ar) (last_term ar) w'
    | broken w' => (Returned (err shutting_down), w')
    | asleep w' => (Blocked, w')
    end.
Proof.
  intros Har. unfold wait_for_majority. unfold_M. simpl. rewrite Har. simpl.
  rewrite cv_wait_end.
  pose proof (wait_end_of_this (stop_cond (last_offset ar) (last_term ar))
                evs w) as Hthis.
  destruct (wait_end_of (stop_cond (last_offset ar) (last_term ar)) evs w)
    as [w'|w'|w']; try reflexivity.
  rewrite <- Hthis in Har.
  rewrite (process_result_run ar (last_term ar) w' Har).
  destruct (negb (last_term ar =? current_term (w_ptr w'))
            && negb (_log_term (w_ptr w') (last_offset ar) =? last_term ar));
    [reflexivity|].
  destruct (last_offset ar <=? _commit_index (w_ptr w')); reflexivity.
Qed.

(** Without a recorded append result the assertion of
    [build_replicate_result] ends the call. *)
Lemma wait_for_majority_unset (evs : list cv_event) (w : world) :
  _append_result (w_this w) = None ->
  wait_for_majority evs w = (Aborted, w).
Proof.
  intros H. unfold wait_for_majority, build_replicate_result. unfold_M.
  simpl. rewrite H. simpl. rewrite H. reflexivity.
Qed.

(** With a recorded append result that is an error, reading its value
    throws. *)
Lemma wait_for_majority_errored (e : errc) (evs : list cv_event) (w : world) :
  _append_result (w_this w) = Some (err e) ->
  wait_for_majority evs w = (Threw (bad_result_access e), w).
Proof.
  intros H. unfold wait_for_majority. unfold_M. simpl. rewrite H.
  reflexivity.
Qed.

(** Once the predicate of the wait holds, [process_result] cannot reach a
    failing assertion: a wait that ended on "truncated" is answered by the
    truncation check, and one that ended on "committed" satisfies the
    assertion. *)
Lemma process_result_after_wait (ar : append_result) (appended_term : Z)
    (w : world) :
  _append_result (w_this w) = Some (ok ar) ->
  stop_cond (last_offset ar) appended_term w = true ->
  process_result (last_offset ar) appended_term w
  = (if negb (appended_term =? current_term (w_ptr w))
        && negb (_log_term (w_ptr w) (last_offset ar) =? appended_term)
     then Returned (err replicated_entry_truncated)
     else Returned (ok {| rr_last_offset := last_offset ar |}),
     w)
  /\ (negb (appended_term =? current_term (w_ptr w))
      && negb (_log_term (w_ptr w) (last_offset ar) =? appended_term) = false
      -> last_offset ar <= _commit_index (w_ptr w)).
Proof.
  intros Har Hstop. rewrite (process_result_run ar appended_term w Har).
  assert (Hc : negb (appended_term =? current_term (w_ptr w))
               && negb (_log_term (w_ptr w) (last_offset ar) =? appended_term)
               = false
               -> last_offset ar <= _commit_index (w_ptr w)).
  { intros Hcheck. apply stop_cond_spec in Hstop.
    destruct Hstop as [Hcommitted|(Ht & _ & Hl)].
    - unfold committed_offset in Hcommitted. lia.
    - exfalso. apply andb_false_iff in Hcheck.
      destruct Hcheck as [Hcheck|Hcheck]; apply negb_false_iff in Hcheck;
        apply Z.eqb_eq in Hcheck; lia. }
  split; [|exact Hc].
  destruct (negb (appended_term =? current_term (w_ptr w))
            && negb (_log_term (w_ptr w) (last_offset ar) =? appended_term));
    [reflexivity|].
  specialize (Hc eq_refl). apply Z.leb_le in Hc. rewrite Hc. reflexivity.
Qed.

(** C6: after a successful self append, [wait_for_majority] waits under
    exactly the predicate "committed or truncated" of the specification:
    it goes on to [process_result] in the first state that satisfies the
    predicate (at once if the current one does), it resolves with
    [shutting_down] if the condition variable is broken before that, and
    it does not resume while no state satisfies it. *)
Theorem wait_for_majority_waits_on_stop_cond (ar : append_result) (w : world) :
  _append_result (w_this w) = Some (ok ar) ->
  (forall w',
     stop_cond (last_offset ar) (last_term ar) w' = true
     <-> (committed_offset (w_ptr w') >= last_offset ar
          \/ (current_term (w_ptr w') > last_term ar
              /\ committed_offset (w_ptr w')
                 > _initial_committed_offset (w_this w')
              /\ _log_term (w_ptr w') (last_offset ar) <> last_term ar)))
  /\ (spec_stop_cond (last_offset ar) (last_term ar) w ->
      forall evs,
        wait_for_majority evs w
        = process_result (last_offset ar) (last_term ar) w)
  /\ (forall cs c rest,
        Forall (fun c' => ~ spec_stop_cond (last_offset ar) (last_term ar)
                            (with_ptr (fun _ => c') w)) (w_ptr w :: cs) ->
        spec_stop_cond (last_offset ar) (last_term ar)
          (with_ptr (fun _ => c) w) ->
        wait_for_majority (map cv_signalled cs ++ cv_signalled c :: rest) w
        = process_result (last_offset ar) (last_term ar)
            (with_ptr (fun _ => c) w))
  /\ (forall cs rest,
        Forall (fun c' => ~ spec_stop_cond (last_offset ar) (last_term ar)
                            (with_ptr (fun _ => c') w)) (w_ptr w :: cs) ->
        fst (wait_for_majority (map cv_signalled cs ++ cv_broken :: rest) w)
        = Returned (err shutting_down))
  /\ (forall cs,
        Forall (fun c' => ~ spec_stop_cond (last_offset ar) (last_term ar)
                            (with_ptr (fun _ => c') w)) (w_ptr w :: cs) ->
        fst (wait_for_majority (map cv_signalled cs) w) = Blocked).
Proof.
  intros Har.
  assert (Hfalse : forall cs,
            Forall (fun c' => ~ spec_stop_cond (last_offset ar) (last_term ar)
                                (with_ptr (fun _ => c') w)) (w_ptr w :: cs) ->
            Forall (fun c' => stop_cond (last_offset ar) (last_term ar)
                                (with_ptr (fun _ => c') w) = false)
              (w_ptr w :: cs)).
  { intros cs H. eapply Forall_impl; [exact H|].
    intros c' Hc'. apply stop_cond_false. exact Hc'. }
  split; [|split; [|split; [|split]]].
  - intros w'. apply stop_cond_spec.
  - intros Hs evs. rewrite (wait_for_majority_run ar evs w Har).
    apply stop_cond_spec in Hs.
    destruct evs; simpl; rewrite Hs; reflexivity.
  - intros cs c rest Hcs Hc.
    rewrite (wait_for_majority_run ar _ w Har).
    destruct (wait_end_of_signals _ cs (cv_signalled c :: rest) w
                (Hfalse cs Hcs)) as [-> Hlast].
    cbn [wait_end_of]. rewrite Hlast.
    change (with_ptr (fun _ => c)
              (with_ptr (fun _ => List.last cs (w_ptr w)) w))
      with (with_ptr (fun _ => c) w).
    apply stop_cond_spec in Hc.
    destruct rest; simpl; rewrite Hc; reflexivity.
  - intros cs rest Hcs.
    rewrite (wait_for_majority_run ar _ w Har).
    destruct (wait_end_of_signals _ cs (cv_broken :: rest) w
                (Hfalse cs Hcs)) as [-> Hlast].
    cbn [wait_end_of]. rewrite Hlast. reflexivity.
  - intros cs Hcs.
    rewrite (wait_for_majority_run ar _ w Har).
    pose proof (wait_end_of_signals _ cs [] w (Hfalse cs Hcs))
      as [Hrun Hlast].
    rewrite app_nil_r in Hrun. rewrite Hrun.
    cbn [wait_end_of]. rewrite Hlast. reflexivity.
Qed.

(** The sample round is woken once with the commit index at 41, short of
    the appended offset 42, and then the condition variable is broken. *)
Lemma wait_for_majority_waits_on_stop_cond_witness :
  fst (wait_for_majority
         (map cv_signalled [committed_at 41 5 (fun _ => 5) sample_consensus]
          ++ cv_broken :: [])
         appended_world)
  = Returned (err shutting_down).
Proof.
  apply (proj1 (proj2 (proj2 (proj2
           (wait_for_majority_waits_on_stop_cond
              (mk_append_result 42 5) appended_world eq_refl))))).
  repeat constructor; apply stop_cond_false; vm_compute; reflexivity.
Defined.

(** C7: when the wait has ended and the current term is no longer the one
    the entry was appended in, the term at the appended offset decides:
    [wait_for_majority] returns [replicated_entry_truncated] if and only if
    that term differs from the appended one, and success with the appended
    offset as [last_offset] if it still matches. With the term unchanged
    the result is that success as well. *)
Theorem truncated_iff_term_at_offset_changed (ar : append_result)
    (evs : list cv_event) (w w' : world) :
  _append_result (w_this w) = Some (ok ar) ->
  wait_end_of (stop_cond (last_offset ar) (last_term ar)) evs w = woken w' ->
  (current_term (w_ptr w') <> last_term ar ->
     (fst (wait_for_majority evs w) = Returned (err replicated_entry_truncated)
      <-> _log_term (w_ptr w') (last_offset ar) <> last_term ar)
     /\ (_log_term (w_ptr w') (last_offset ar) = last_term ar ->
         fst (wait_for_majority evs w)
         = Returned (ok {| rr_last_offset := last_offset ar |})))
  /\ (current_term (w_ptr w') = last_term ar ->
      fst (wait_for_majority evs w)
      = Returned (ok {| rr_last_offset := last_offset ar |})).
Proof.
  intros Har Hend.
  destruct (wait_end_of_woken _ evs w w' Hend) as [Hstop Hthis].
  rewrite (wait_for_majority_run ar evs w Har), Hend.
  rewrite <- Hthis in Har.
  destruct (process_result_after_wait ar (last_term ar) w' Har Hstop)
    as [-> _].
  split.
  - intros Hterm.
    assert (Ht : negb (last_term ar =? current_term (w_ptr w')) = true).
    { apply negb_true_iff. apply Z.eqb_neq. congruence. }
    rewrite Ht. cbn [andb fst].
    destruct (_log_term (w_ptr w') (last_offset ar) =? last_term ar) eqn:Hl;
      cbn [negb].
    + apply Z.eqb_eq in Hl. split; [split|]; congruence.
    + apply Z.eqb_neq in Hl. split; [split|]; congruence.
  - intros Hterm.
    assert (Ht : negb (last_term ar =? current_term (w_ptr w')) = false).
    { apply negb_false_iff. apply Z.eqb_eq. congruence. }
    rewrite Ht. reflexivity.
Qed.

(** Scenario 5 of the specification. *)
Lemma truncated_iff_term_at_offset_changed_witness :
  fst (wait_for_majority
         [cv_signalled (committed_at 100 7 (fun _ => 7) sample_consensus)]
         scenario5_world)
  = Returned (err replicated_entry_truncated).
Proof.
  apply (proj1 (proj1 (truncated_iff_term_at_offset_changed
           (mk_append_result 100 5)
           [cv_signalled (committed_at 100 7 (fun _ => 7) sample_consensus)]
           scenario5_world
           (with_ptr (fun _ => committed_at 100 7 (fun _ => 7)
                                 sample_consensus) scenario5_world)
           eq_refl eq_refl)
           ltac:(vm_compute; discriminate)));
    vm_compute; discriminate.
Defined.

(** C1: whenever [wait_for_majority] returns success, the offset it
    reports is the appended one and is at most the commit index of the
    state it returns in. The assertion of [process_result] that guards this
    never fails after the wait: once the predicate of the wait holds,
    either the truncation check returns its error or the appended offset
    is at most the commit index; so [wait_for_majority] does not abort
    after a successful self append. *)
Theorem success_implies_committed :
  (forall evs w r,
     fst (wait_for_majority evs w) = Returned (ok r) ->
     rr_last_offset r <= _commit_index (w_ptr (snd (wait_for_majority evs w)))
     /\ rr_last_offset r
        <= committed_offset (w_ptr (snd (wait_for_majority evs w)))
     /\ exists ar, _append_result (w_this w) = Some (ok ar)
                   /\ rr_last_offset r = last_offset ar)
  /\ (forall ar appended_term w,
        _append_result (w_this w) = Some (ok ar) ->
        stop_cond (last_offset ar) appended_term w = true ->
        fst (process_result (last_offset ar) appended_term w)
        = Returned (err replicated_entry_truncated)
        \/ (last_offset ar <= _commit_index (w_ptr w)
            /\ fst (process_result (last_offset ar) appended_term w)
               = Returned (ok {| rr_last_offset := last_offset ar |})))
  /\ (forall ar evs w,
        _append_result (w_this w) = Some (ok ar) ->
        fst (wait_for_majority evs w) <> Aborted).
Proof.
  split; [|split].
  - intros evs w r.
    destruct (_append_result (w_this w)) as [[ar|e]|] eqn:Har.
    + rewrite (wait_for_majority_run ar evs w Har).
      destruct (wait_end_of (stop_cond (last_offset ar) (last_term ar)) evs w)
        as [w'|w'|w'] eqn:Hend; cbn [fst snd]; try discriminate.
      destruct (wait_end_of_woken _ evs w w' Hend) as [Hstop Hthis].
      rewrite <- Hthis in Har.
      destruct (process_result_after_wait ar (last_term ar) w' Har Hstop)
        as [-> Hle].
      destruct (negb (last_term ar =? current_term (w_ptr w'))
                && negb (_log_term (w_ptr w') (last_offset ar)
                         =? last_term ar));
        cbn [fst snd]; [discriminate|].
      intros H. injection H as <-. cbn [rr_last_offset].
      specialize (Hle eq_refl). unfold committed_offset.
      repeat split; try exact Hle. exists ar. split; reflexivity.
    + rewrite (wait_for_majority_errored e evs w Har). discriminate.
    + rewrite (wait_for_majority_unset evs w Har). discriminate.
  - intros ar appended_term w Har Hstop.
    destruct (process_result_after_wait ar appended_term w Har Hstop)
      as [-> Hle].
    destruct (negb (appended_term =? current_term (w_ptr w))
              && negb (_log_term (w_ptr w) (last_offset ar)
                       =? appended_term));
      [left; reflexivity|].
    right. split; [apply Hle|]; reflexivity.
  - intros ar evs w Har.
    rewrite (wait_for_majority_run ar evs w Har).
    destruct (wait_end_of (stop_cond (last_offset ar) (last_term ar)) evs w)
      as [w'|w'|w'] eqn:Hend; cbn [fst]; try discriminate.
    destruct (wait_end_of_woken _ evs w w' Hend) as [Hstop Hthis].
    rewrite <- Hthis in Har.
    destruct (process_result_after_wait ar (last_term ar) w' Har Hstop)
      as [-> _].
    destruct (negb (last_term ar =? current_term (w_ptr w'))
              && negb (_log_term (w_ptr w') (last_offset ar) =? last_term ar));
      discriminate.
Qed.

(** The sample round is woken with the commit index at 41, then at 42. *)
Lemma success_implies_committed_witness :
  42 <= _commit_index
          (w_ptr (snd (wait_for_majority
                         [cv_signalled
                            (committed_at 41 5 (fun _ => 5) sample_consensus);
                          cv_signalled
                            (committed_at 42 5 (fun _ => 5) sample_consensus)]
                         appended_world))).
Proof.
  apply (proj1 (proj1 success_implies_committed
                  [cv_signalled
                     (committed_at 41 5 (fun _ => 5) sample_consensus);
                   cv_signalled
                     (committed_at 42 5 (fun _ => 5) sample_consensus)]
                  appended_world {| rr_last_offset := 42 |}
                  ltac:(vm_compute; reflexivity))).
Defined.

(** C10: on a round whose append result was never recorded,
    [wait_for_majority] does not return an error: the assertion of
    [build_replicate_result] aborts. This is so for every freshly
    constructed round, and any outcome of [wait_for_majority] other than
    the abort shows that an append result had been stored. *)
Theorem wait_for_majority_needs_append_result :
  (forall evs w,
     _append_result (w_this w) = None ->
     wait_for_majority evs w = (Aborted, w))
  /\ (forall X r seqs c now evs,
        fst (wait_for_majority evs
               (mk_world c (replicate_entries_stm X r seqs) now []))
        = Aborted)
  /\ (forall evs w,
        fst (wait_for_majority evs w) <> Aborted ->
        exists res, _append_result (w_this w) = Some res).
Proof.
  split; [|split].
  - apply wait_for_majority_unset.
  - intros X r seqs c now evs.
    rewrite wait_for_majority_unset; reflexivity.
  - intros evs w H.
    destruct (_append_result (w_this w)) as [res|] eqn:Har; [eauto|].
    rewrite (wait_for_majority_unset evs w Har) in H. contradiction.
Qed.

Lemma wait_for_majority_needs_append_result_witness :
  wait_for_majority [cv_broken] (sample_world healthy)
  = (Aborted, sample_world healthy).
Proof.
  apply (proj1 wait_for_majority_needs_append_result
           [cv_broken] (sample_world healthy)).
  reflexivity.
Defined.

(** *** The leader's own slot *)

(** C8: the leader's slot requests a flush of the log exactly when
    [flush_required] is set. The call signals [_dispatch_sem] once and
    returns, in both cases and whatever becomes of the flush: the signal
    directly follows the flush request and precedes the continuation that
    awaits the flush. That continuation yields, if the flush succeeded (or
    none was needed), a reply with the leader's node as [node_id] and
    [target_node_id], the group, the current term, the dirty offset as both
    log indices, and [success]; and [leader_flush_failed] if the flush
    failed. *)
Theorem flush_log_self_slot (X : externals) (w : world) :
  let required := _is_flush_required (w_this w) in
  let flushed := consensus_flush_log X (w_ptr w) in
  snd (flush_log X w)
  = {| w_ptr := if required then snd flushed else w_ptr w;
       w_this := set_dispatch_sem (_dispatch_sem (w_this w) + 1) (w_this w);
       w_now := w_now w;
       w_events := (w_events w ++ (if required then [ev_flush_log] else []))
                   ++ [ev_dispatch_sem_signal] |}
  /\ match fst (flush_log X w) with
     | Returned f =>
         forall w2,
           f w2
           = (match (if required then fst flushed else resolved tt) with
              | resolved _ => Returned (ok (self_reply w2))
              | failed _ => Returned (err leader_flush_failed)
              end, w2)
     | _ => False
     end.
Proof.
  unfold flush_log, signal_dispatch_sem. unfold_M.
  unfold with_event, with_this, with_ptr.
  cbn [fst snd w_this w_ptr w_now w_events].
  destruct (_is_flush_required (w_this w)).
  - cbn [fst snd w_this w_ptr w_now w_events].
    destruct (consensus_flush_log X (w_ptr w)) as [[u|e] c];
      cbn [fst snd w_this w_ptr w_now w_events].
    + split; [reflexivity|]. intros w2. reflexivity.
    + split; [reflexivity|]. intros w2. reflexivity.
  - cbn [fst snd w_this w_ptr w_now w_events]. rewrite app_nil_r.
    split; [reflexivity|]. intros w2. reflexivity.
Qed.

(** *** The self append *)

(** One step of a run, by the head of the sequence. *)
Lemma bind_this {A B} (f : stm -> A) (k : A -> M B) (w : world) :
  bind (this f) k w = k (f (w_this w)) w.
Proof. reflexivity. Qed.

Lemma bind_ptr {A B} (f : consensus -> A) (k : A -> M B) (w : world) :
  bind (ptr f) k w = k (f (w_ptr w)) w.
Proof. reflexivity. Qed.

Lemma bind_set_this {B} (f : stm -> stm) (k : unit -> M B) (w : world) :
  bind (set_this f) k w = k tt (with_this f w).
Proof. reflexivity. Qed.

Lemma bind_set_ptr {B} (f : consensus -> consensus) (k : unit -> M B)
    (w : world) :
  bind (set_ptr f) k w = k tt (with_ptr f w).
Proof. reflexivity. Qed.

Lemma bind_ret {A B} (a : A) (k : A -> M B) (w : world) :
  bind (ret a) k w = k a w.
Proof. reflexivity. Qed.

Lemma bind_returned {A B} (m : M A) (k : A -> M B) (w w' : world) (a : A) :
  m w = (Returned a, w') -> bind m k w = k a w'.
Proof. intros H. unfold bind. rewrite H. reflexivity. Qed.

Lemma bind_aborted {A B} (m : M A) (k : A -> M B) (w w' : world) :
  m w = (Aborted, w') -> bind m k w = (Aborted, w').
Proof. intros H. unfold bind. rewrite H. reflexivity. Qed.

Lemma bind_threw {A B} (m : M A) (k : A -> M B) (w w' : world) (e : exn) :
  m w = (Threw e, w') -> bind m k w = (Threw e, w').
Proof. intros H. unfold bind. rewrite H. reflexivity. Qed.

Ltac mstep_in H :=
  first [rewrite bind_this in H | rewrite bind_ptr in H
        | rewrite bind_set_this in H | rewrite bind_set_ptr in H
        | rewrite bind_ret in H];
  cbn beta in H; unfold with_this, with_ptr in H;
  cbn [fst snd w_this w_ptr w_now w_events opt_value value has_value negb
       _append_result _req_bg_closed set_batches set_hb_guards
       set_dispatch_sem set_req_bg_closed set_req_bg_tasks set_dirty_offset
       set_initial_committed_offset set_units set_append_result
       set_requests_count] in H.

(** Sharing that works: the caller gets the first of the two readers, the
    holder the last. *)
Lemma share_batches_run (X : externals) (w : world)
    (b r1 r2 : record_batch_reader) :
  share_mutex_get_units X (w_ptr w) = resolved tt ->
  _batches (w_this w) = Some b ->
  foreign_share_n X b (w_ptr w) = resolved (r1, r2) ->
  share_batches X w = (Returned r1, with_this (set_batches (Some r2)) w).
Proof.
  intros Hm Hb Hf. unfold share_batches.
  unfold bind at 1. rewrite bind_ptr. cbn beta. rewrite Hm. cbn [await].
  unfold ret at 1. rewrite bind_this. cbn beta. rewrite Hb. cbn [opt_value].
  rewrite bind_ret. cbn beta.
  unfold bind at 1. rewrite bind_ptr. cbn beta. rewrite Hf. cbn [await].
  unfold ret at 1. rewrite bind_set_this. reflexivity.
Qed.

(** Sharing that fails, for one of three reasons, leaves the round as it
    was. *)
Lemma share_batches_mutex_failed (X : externals) (w : world) (e : exn) :
  share_mutex_get_units X (w_ptr w) = failed e ->
  share_batches X w = (Threw e, w).
Proof.
  intros Hm. unfold share_batches.
  unfold bind at 1. rewrite bind_ptr. cbn beta. rewrite Hm. reflexivity.
Qed.

Lemma share_batches_empty (X : externals) (w : world) :
  share_mutex_get_units X (w_ptr w) = resolved tt ->
  _batches (w_this w) = None ->
  share_batches X w = (Threw bad_optional_access, w).
Proof.
  intros Hm Hb. unfold share_batches.
  unfold bind at 1. rewrite bind_ptr. cbn beta. rewrite Hm. cbn [await].
  unfold ret at 1. rewrite bind_this. cbn beta. rewrite Hb. reflexivity.
Qed.

Lemma share_batches_copy_failed (X : externals) (w : world)
    (b : record_batch_reader) (e : exn) :
  share_mutex_get_units X (w_ptr w) = resolved tt ->
  _batches (w_this w) = Some b ->
  foreign_share_n X b (w_ptr w) = failed e ->
  share_batches X w = (Threw e, w).
Proof.
  intros Hm Hb Hf. unfold share_batches.
  unfold bind at 1. rewrite bind_ptr. cbn beta. rewrite Hm. cbn [await].
  unfold ret at 1. rewrite bind_this. cbn beta. rewrite Hb. cbn [opt_value].
  rewrite bind_ret. cbn beta.
  unfold bind at 1. rewrite bind_ptr. cbn beta. rewrite Hf. reflexivity.
Qed.

(** Sharing either works, or throws and changes nothing; which of the two
    depends on the consensus object and on the holder only. *)
Lemma share_batches_cases (X : externals) (w : world) :
  (exists b r1 r2,
     share_mutex_get_units X (w_ptr w) = resolved tt
     /\ _batches (w_this w) = Some b
     /\ foreign_share_n X b (w_ptr w) = resolved (r1, r2))
  \/ (exists e,
        forall w',
          w_ptr w' = w_ptr w ->
          _batches (w_this w') = _batches (w_this w) ->
          share_batches X w' = (Threw e, w')).
Proof.
  destruct (share_mutex_get_units X (w_ptr w)) as [[]|e] eqn:Hm.
  - destruct (_batches (w_this w)) as [b|] eqn:Hb.
    + destruct (foreign_share_n X b (w_ptr w)) as [[r1 r2]|e] eqn:Hf.
      * left. exists b, r1, r2. repeat split; first [assumption|reflexivity].
      * right. exists e. intros w' Hp Hb'.
        apply (share_batches_copy_failed X w' b e);
          rewrite ?Hp; assumption.
    + right. exists bad_optional_access. intros w' Hp Hb'.
      apply (share_batches_empty X w'); rewrite ?Hp; assumption.
  - right. exists e. intros w' Hp Hb'.
    apply (share_batches_mutex_failed X w' e). rewrite Hp. exact Hm.
Qed.

(** The self append, step by step: once the batches are shared, the
    consistency level is written, then the disk append is attempted on the
    object that already carries it. *)
Lemma append_to_self_run (X : externals) (w : world)
    (b r1 r2 : record_batch_reader) :
  share_mutex_get_units X (w_ptr w) = resolved tt ->
  _batches (w_this w) = Some b ->
  foreign_share_n X b (w_ptr w) = resolved (r1, r2) ->
  let required := _is_flush_required (w_this w) in
  let attempt :=
    disk_append X r1 required
      (set_last_write_consistency_level
         (if required then quorum_ack else leader_ack) (w_ptr w)) in
  append_to_self X w
  = match fst attempt with
    | failed _ =>
        (Returned (err leader_append_failed),
         mk_world (snd attempt) (set_batches (Some r2) (w_this w)) (w_now w)
           (w_events w ++ [ev_disk_append required]))
    | resolved res =>
        (Returned (ok res),
         if _commit_index (snd attempt)
            >=? _last_quorum_replicated_index (snd attempt)
         then
           mk_world
             (maybe_update_majority_replicated_index X
                (set_visibility_upper_bound_index
                   (Z.max (_visibility_upper_bound_index (snd attempt))
                      (last_offset res)) (snd attempt)))
             (set_batches (Some r2) (w_this w)) (w_now w)
             ((w_events w ++ [ev_disk_append required])
              ++ [ev_maybe_update_majority_replicated_index])
         else
           mk_world (snd attempt) (set_batches (Some r2) (w_this w))
             (w_now w) (w_events w ++ [ev_disk_append required]))
    end.
Proof.
  intros Hm Hb Hf required attempt. unfold append_to_self.
  unfold handle_exception at 1. unfold bind at 1.
  rewrite (share_batches_run X w b r1 r2 Hm Hb Hf).
  unfold_M. unfold with_event, with_ptr, with_this.
  cbn [fst snd w_this w_ptr w_now w_events].
  change (_is_flush_required (set_batches (Some r2) (w_this w)))
    with (_is_flush_required (w_this w)).
  fold required. fold attempt.
  destruct attempt as [[res|e] c]; cbn [fst snd w_this w_ptr w_now w_events];
    [|reflexivity].
  destruct (_commit_index c >=? _last_quorum_replicated_index c);
    reflexivity.
Qed.

(** When the batches cannot be shared the append is not attempted at
    all. *)
Lemma append_to_self_unshared (X : externals) (w : world) (e : exn) :
  share_batches X w = (Threw e, w) ->
  append_to_self X w = (Returned (err leader_append_failed), w).
Proof.
  intros Hs. unfold append_to_self.
  unfold handle_exception at 1. unfold bind at 1.
  rewrite Hs. reflexivity.
Qed.

(** *** The orchestration *)

Lemma world_eta (w : world) :
  mk_world (w_ptr w) (w_this w) (w_now w) (w_events w) = w.
Proof. destruct w; reflexivity. Qed.

Lemma set_hb_guards_same (s : stm) : set_hb_guards (_hb_guards s) s = s.
Proof. destruct s; reflexivity. Qed.

(** The first loop of [apply] touches the heartbeat guards only, and calls
    [suppress_heartbeats] once for each broker but the leader. *)
Lemma suppress_loop_run (cfg : list vnode) (w : world) :
  exists g,
    for_each suppress_follower_heartbeats cfg w
    = (Returned tt,
       mk_world (w_ptr w) (set_hb_guards g (w_this w)) (w_now w)
         (w_events w
          ++ map ev_suppress_heartbeats
               (filter (fun n => n <> _self (w_ptr w)) cfg))).
Proof.
  revert w. induction cfg as [|n cfg IH]; intros w.
  - exists (_hb_guards (w_this w)). simpl.
    rewrite set_hb_guards_same, app_nil_r, world_eta. reflexivity.
  - cbn [for_each]. unfold bind at 1.
    unfold suppress_follower_heartbeats at 1. unfold_M.
    unfold with_event, with_this.
    cbn [fst snd w_this w_ptr w_now w_events].
    destruct (decide (n <> _self (w_ptr w))) as [Hn|Hn].
    + cbn [fst snd w_this w_ptr w_now w_events].
      match goal with
      | |- context [for_each _ cfg ?w1] => destruct (IH w1) as [g Hg]
      end.
      exists g. rewrite Hg.
      cbn [fst snd w_this w_ptr w_now w_events].
      rewrite filter_cons_True by exact Hn.
      cbn [map]. rewrite <- app_assoc. reflexivity.
    + destruct (IH w) as [g Hg]. exists g. rewrite Hg.
      rewrite filter_cons_False by exact Hn. reflexivity.
Qed.

(** What [apply] comes to once the self append has returned an error:
    the stored result is the error, the guard [!_append_result] tests the
    optional and lets it pass, and reading the value of the stored result
    throws. *)
Lemma apply_after_failed_append (X : externals) (u : list Z) (w : world)
    (g : gmap vnode bool) (w2 : world) :
  for_each suppress_follower_heartbeats (_config (w_ptr w)) w
  = (Returned tt,
     mk_world (w_ptr w) (set_hb_guards g (w_this w)) (w_now w)
       (w_events w
        ++ map ev_suppress_heartbeats
             (filter (fun n => n <> _self (w_ptr w)) (_config (w_ptr w))))) ->
  append_to_self X
    (mk_world (w_ptr w) (set_units (Some u) (set_hb_guards g (w_this w)))
       (w_now w)
       (w_events w
        ++ map ev_suppress_heartbeats
             (filter (fun n => n <> _self (w_ptr w)) (_config (w_ptr w)))))
  = (Returned (err leader_append_failed), w2) ->
  apply X u w
  = (Threw (bad_result_access leader_append_failed),
     with_this (set_append_result (Some (err leader_append_failed))) w2).
Proof.
  intros Hg Happ. unfold apply.
  rewrite bind_ptr. cbn beta.
  rewrite (bind_returned _ _ _ _ _ Hg).
  rewrite bind_set_this. cbn beta. unfold with_this at 1.
  cbn [w_ptr w_this w_now w_events].
  rewrite (bind_returned _ _ _ _ _ Happ).
  rewrite bind_set_this. cbn beta.
  rewrite bind_this. cbn beta. unfold with_this.
  cbn [w_this _append_result set_append_result has_value negb].
  reflexivity.
Qed.

(** A round whose disk append fails. Nothing but the heartbeat guards,
    the units, the holder (refilled by the sharing) and the append result
    has changed. *)
Lemma apply_self_append_failed (X : externals) (u : list Z) (w : world)
    (b r1 r2 : record_batch_reader) (e : exn) :
  share_mutex_get_units X (w_ptr w) = resolved tt ->
  _batches (w_this w) = Some b ->
  foreign_share_n X b (w_ptr w) = resolved (r1, r2) ->
  let required := _is_flush_required (w_this w) in
  let attempt :=
    disk_append X r1 required
      (set_last_write_consistency_level
         (if required then quorum_ack else leader_ack) (w_ptr w)) in
  fst attempt = failed e ->
  exists g,
    apply X u w
    = (Threw (bad_result_access leader_append_failed),
       mk_world (snd attempt)
         (set_append_result (Some (err leader_append_failed))
            (set_batches (Some r2)
               (set_units (Some u) (set_hb_guards g (w_this w)))))
         (w_now w)
         ((w_events w
           ++ map ev_suppress_heartbeats
                (filter (fun n => n <> _self (w_ptr w)) (_config (w_ptr w))))
          ++ [ev_disk_append required])).
Proof.
  intros Hm Hb Hf required attempt Hfail.
  destruct (suppress_loop_run (_config (w_ptr w)) w) as [g Hg].
  exists g.
  pose proof (append_to_self_run X
    (mk_world (w_ptr w) (set_units (Some u) (set_hb_guards g (w_this w)))
       (w_now w)
       (w_events w
        ++ map ev_suppress_heartbeats
             (filter (fun n => n <> _self (w_ptr w)) (_config (w_ptr w)))))
    b r1 r2 Hm Hb Hf) as Happ.
  cbn [fst snd w_this w_ptr w_now w_events _is_flush_required set_units
       set_hb_guards] in Happ.
  fold required in Happ. fold attempt in Happ. rewrite Hfail in Happ.
  rewrite (apply_after_failed_append X u w g _ Hg Happ).
  reflexivity.
Qed.

(** A round whose batches cannot be shared fails in the same way,
    without a disk append. *)
Lemma apply_sharing_failed (X : externals) (u : list Z) (w : world) (e : exn) :
  (forall w', w_ptr w' = w_ptr w ->
              _batches (w_this w') = _batches (w_this w) ->
              share_batches X w' = (Threw e, w')) ->
  exists g,
    apply X u w
    = (Threw (bad_result_access leader_append_failed),
       mk_world (w_ptr w)
         (set_append_result (Some (err leader_append_failed))
            (set_units (Some u) (set_hb_guards g (w_this w))))
         (w_now w)
         (w_events w
          ++ map ev_suppress_heartbeats
               (filter (fun n => n <> _self (w_ptr w)) (_config (w_ptr w))))).
Proof.
  intros Hshare.
  destruct (suppress_loop_run (_config (w_ptr w)) w) as [g Hg].
  exists g.
  pose (w1 :=
    mk_world (w_ptr w) (set_units (Some u) (set_hb_guards g (w_this w)))
      (w_now w)
      (w_events w
       ++ map ev_suppress_heartbeats
            (filter (fun n => n <> _self (w_ptr w)) (_config (w_ptr w))))).
  pose proof (append_to_self_unshared X w1 e (Hshare w1 eq_refl eq_refl))
    as Happ.
  rewrite (apply_after_failed_append X u w g _ Hg Happ).
  reflexivity.
Qed.

Lemma count_events_app (p : event -> bool) (l1 l2 : list event) :
  count_events p (l1 ++ l2) = (count_events p l1 + count_events p l2)%nat.
Proof. unfold count_events. rewrite filter_app, length_app. reflexivity. Qed.

Lemma count_signals_suppress (l : list vnode) :
  count_events is_signal (map ev_suppress_heartbeats l) = 0%nat.
Proof. induction l as [|n l IH]; [reflexivity|exact IH]. Qed.

(** C5 does not hold of the code. When the self append of a round fails,
    because the batches cannot be shared or because the disk append
    throws, no peer is dispatched to, no permit is produced and the dirty
    offset is not published, as the claim says; but [apply] does not
    return the [leader_append_failed] result. Its guard
    [if (!_append_result)] tests whether the optional is engaged, which it
    is as soon as the error has been stored, so control reaches
    [_append_result->value()], which throws on the stored error.
    [wait_for_majority] has the same guard and throws in the same way.
    The hypothesis says that the disk append throws whenever the sharing
    hands it a reader. *)
Theorem apply_self_append_failure_throws (X : externals) (u : list Z)
    (w : world) :
  (forall b r1 r2,
     share_mutex_get_units X (w_ptr w) = resolved tt ->
     _batches (w_this w) = Some b ->
     foreign_share_n X b (w_ptr w) = resolved (r1, r2) ->
     exists e,
       fst (disk_append X r1 (_is_flush_required (w_this w))
              (set_last_write_consistency_level
                 (if _is_flush_required (w_this w)
                  then quorum_ack else leader_ack)
                 (w_ptr w)))
       = failed e) ->
  let after := snd (apply X u w) in
  fst (apply X u w) = Threw (bad_result_access leader_append_failed)
  /\ _append_result (w_this after) = Some (err leader_append_failed)
  /\ _req_bg_tasks (w_this after) = _req_bg_tasks (w_this w)
  /\ _dispatch_sem (w_this after) = _dispatch_sem (w_this w)
  /\ _requests_count (w_this after) = _requests_count (w_this w)
  /\ _dirty_offset (w_this after) = _dirty_offset (w_this w)
  /\ count_events is_signal (w_events after)
     = count_events is_signal (w_events w)
  /\ forall evs,
       wait_for_majority evs after
       = (Threw (bad_result_access leader_append_failed), after).
Proof.
  intros Hfails after.
  destruct (share_batches_cases X w)
    as [(b & r1 & r2 & Hm & Hb & Hf)|[e Hshare]].
  - destruct (Hfails b r1 r2 Hm Hb Hf) as [e Hfail].
    destruct (apply_self_append_failed X u w b r1 r2 e Hm Hb Hf Hfail)
      as [g Hrun].
    subst after. rewrite Hrun. cbn [fst snd w_this w_events].
    repeat split; try reflexivity.
    rewrite !count_events_app, count_signals_suppress.
    change (count_events is_signal
              [ev_disk_append (_is_flush_required (w_this w))])
      with 0%nat.
    lia.
  - destruct (apply_sharing_failed X u w e Hshare) as [g Hrun].
    subst after. rewrite Hrun. cbn [fst snd w_this w_events].
    repeat split; try reflexivity.
    rewrite !count_events_app, count_signals_suppress. lia.
Qed.

Lemma apply_self_append_failure_throws_witness :
  fst (apply failing [1] (sample_world failing))
  = Threw (bad_result_access leader_append_failed).
Proof.
  apply (apply_self_append_failure_throws failing [1] (sample_world failing)
           (fun _ _ _ _ _ _ => ex_intro _ (other_exception 5) eq_refl)).
Defined.

(** C9: once the batches of the round are shared, [append_to_self] writes
    [_last_write_consistency_level] ([quorum_ack] when a flush is
    required, [leader_ack] otherwise) before it attempts the disk append,
    which therefore runs on an object that already carries the new level.
    A disk append that throws makes [append_to_self] return
    [leader_append_failed] and leaves the object as the failed attempt
    left it; so, as long as the storage layer does not itself write the
    field, the level stays updated after the round has failed. *)
Theorem append_to_self_sets_consistency_level (X : externals) (w : world)
    (b r1 r2 : record_batch_reader) :
  share_mutex_get_units X (w_ptr w) = resolved tt ->
  _batches (w_this w) = Some b ->
  foreign_share_n X b (w_ptr w) = resolved (r1, r2) ->
  let required := _is_flush_required (w_this w) in
  let level := if required then quorum_ack else leader_ack in
  let attempt :=
    disk_append X r1 required
      (set_last_write_consistency_level level (w_ptr w)) in
  (forall e,
     fst attempt = failed e ->
     fst (append_to_self X w) = Returned (err leader_append_failed)
     /\ w_ptr (snd (append_to_self X w)) = snd attempt
     /\ forall u, w_ptr (snd (apply X u w)) = snd attempt)
  /\ ((forall b' r c,
         _last_write_consistency_level (snd (disk_append X b' r c))
         = _last_write_consistency_level c) ->
      (forall c,
         _last_write_consistency_level
           (maybe_update_majority_replicated_index X c)
         = _last_write_consistency_level c) ->
      _last_write_consistency_level (w_ptr (snd (append_to_self X w))) = level
      /\ forall u e,
           fst attempt = failed e ->
           _last_write_consistency_level (w_ptr (snd (apply X u w))) = level).
Proof.
  intros Hm Hb Hf required level attempt. split.
  - intros e Hfail.
    pose proof (append_to_self_run X w b r1 r2 Hm Hb Hf) as Hrun.
    cbv zeta in Hrun.
    fold required level attempt in Hrun. rewrite Hrun, Hfail.
    repeat split.
    intros u.
    destruct (apply_self_append_failed X u w b r1 r2 e Hm Hb Hf Hfail)
      as [g ->].
    reflexivity.
  - intros Hdisk Hmaybe.
    assert (Hattempt : _last_write_consistency_level (snd attempt) = level).
    { subst attempt. rewrite Hdisk. reflexivity. }
    split.
    + pose proof (append_to_self_run X w b r1 r2 Hm Hb Hf) as Hrun.
      cbv zeta in Hrun.
      fold required level attempt in Hrun. rewrite Hrun.
      destruct (fst attempt) as [res|e]; cbn [snd]; [|exact Hattempt].
      destruct (_commit_index (snd attempt)
                >=? _last_quorum_replicated_index (snd attempt));
        cbn [w_ptr]; [|exact Hattempt].
      rewrite Hmaybe. exact Hattempt.
    + intros u e Hfail.
      destruct (apply_self_append_failed X u w b r1 r2 e Hm Hb Hf Hfail)
        as [g ->].
      exact Hattempt.
Qed.

(** In the sample round the level was [no_ack]; the append throws. *)
Lemma append_to_self_sets_consistency_level_witness :
  _last_write_consistency_level
    (w_ptr (snd (apply failing [1] (sample_world failing))))
  = quorum_ack.
Proof.
  apply (proj2 (proj2 (append_to_self_sets_consistency_level failing
                         (sample_world failing) [40; 41; 42] [40; 41; 42]
                         [40; 41; 42] eq_refl eq_refl eq_refl)
                  ltac:(intros; reflexivity) ltac:(intros; reflexivity))
           [1] (other_exception 5) eq_refl).
Defined.

(** *** The per-peer dispatch *)

Lemma count_events_one (p : event -> bool) (e : event) :
  count_events p [e] = if p e then 1%nat else 0%nat.
Proof.
  unfold count_events. destruct (p e) eqn:Hp.
  - rewrite filter_cons_True by exact Hp. reflexivity.
  - rewrite filter_cons_False by congruence. reflexivity.
Qed.

Lemma count_events_cons (p : event -> bool) (e : event) (l : list event) :
  count_events p (e :: l)
  = ((if p e then 1 else 0) + count_events p l)%nat.
Proof.
  change (e :: l) with ([e] ++ l).
  rewrite count_events_app, count_events_one. reflexivity.
Qed.

Lemma advanced_refl (w : world) : advanced 0 0 w w.
Proof.
  constructor; try reflexivity; try tauto.
  - cbn [Z.of_nat]. lia.
  - cbn [Z.of_nat]. lia.
  - lia.
Qed.

Lemma advanced_trans (n1 k1 n2 k2 : nat) (w w1 w2 : world) :
  advanced n1 k1 w w1 -> advanced n2 k2 w1 w2 ->
  advanced (n1 + n2) (k1 + k2) w w2.
Proof.
  intros [] []. constructor; try congruence; try lia; try tauto.
Qed.

(** A step that adds events to the record and leaves the state machine
    to [s]. *)
Lemma advanced_step (n k : nat) (w : world) (c : consensus) (s : stm)
    (evs : list event) :
  _requests_count s = _requests_count (w_this w) + Z.of_nat n ->
  _dispatch_sem s = _dispatch_sem (w_this w) + Z.of_nat k ->
  count_events is_signal evs = k ->
  (has_value (_batches (w_this w)) = true -> has_value (_batches s) = true) ->
  _req_bg_closed s = _req_bg_closed (w_this w) ->
  _req_bg_tasks s = _req_bg_tasks (w_this w) ->
  _units s = _units (w_this w) ->
  _append_result s = _append_result (w_this w) ->
  _dirty_offset s = _dirty_offset (w_this w) ->
  advanced n k w (mk_world c s (w_now w) (w_events w ++ evs)).
Proof.
  intros. constructor; cbn [w_this w_events]; try assumption.
  rewrite count_events_app. congruence.
Qed.

Ltac solve_advanced_step :=
  stm_fields;
  first [reflexivity | assumption | (cbn [Z.of_nat]; lia) | tauto].

(** The leader's slot: one signal, the semaphore apart nothing of the
    state machine changes, and the dispatch yields a result. *)
Lemma dispatch_single_retry_self (X : externals) (id : vnode) (w : world) :
  id = _self (w_ptr w) ->
  exists c evs r,
    dispatch_single_retry X id w
    = (Returned r,
       mk_world c
         (set_dispatch_sem (_dispatch_sem (w_this w) + 1) (w_this w))
         (w_now w) (w_events w ++ evs))
    /\ count_events is_signal evs = 1%nat.
Proof.
  intros Hid. unfold dispatch_single_retry, flush_log, signal_dispatch_sem.
  unfold_M. unfold with_event, with_this, with_ptr.
  cbn [fst snd w_this w_ptr w_now w_events].
  destruct (decide (id = _self (w_ptr w))) as [_|Hne]; [|contradiction].
  destruct (_is_flush_required (w_this w)).
  - cbn [fst snd w_this w_ptr w_now w_events].
    destruct (consensus_flush_log X (w_ptr w)) as [[u|e] c];
      cbn [fst snd w_this w_ptr w_now w_events];
      eexists _, [ev_flush_log; ev_dispatch_sem_signal], _;
      (split; [rewrite <- app_assoc; reflexivity | reflexivity]).
  - cbn [fst snd w_this w_ptr w_now w_events].
    eexists _, [ev_dispatch_sem_signal], _.
    split; reflexivity.
Qed.

(** A request to a follower, once its batches are there: one signal,
    whether the append-entries unit could be taken or not and however the
    RPC ends; the heartbeat guard of the follower is released; a failed
    unit acquisition yields [append_entries_dispatch_error]. *)
Lemma send_append_entries_request_run (X : externals) (n : vnode)
    (batches : record_batch_reader) (w : world) :
  exists c evs r,
    send_append_entries_request X n batches w
    = (Returned r,
       mk_world c
         (set_hb_guards (<[n := false]> (_hb_guards (w_this w)))
            (set_dispatch_sem (_dispatch_sem (w_this w) + 1) (w_this w)))
         (w_now w) (w_events w ++ evs))
    /\ count_events is_signal evs = 1%nat
    /\ (forall e,
          fst (get_append_entries_unit X n
                 (update_node_append_timestamp X n (w_ptr w))) = failed e ->
          r = err append_entries_dispatch_error).
Proof.
  unfold send_append_entries_request, signal_dispatch_sem, unsuppress.
  unfold_M. unfold with_event, with_this, with_ptr.
  cbn [fst snd w_this w_ptr w_now w_events].
  destruct (get_append_entries_unit X n
              (update_node_append_timestamp X n (w_ptr w))) as [[u|e] c];
    cbn [fst snd w_this w_ptr w_now w_events].
  - destruct (client_append_entries X (vnode_id n) _ c) as [[reply|e] c'].
    + cbn [fst snd w_this w_ptr w_now w_events].
      eexists _, [ev_update_node_append_timestamp n;
                  ev_get_append_entries_unit n;
                  ev_append_entries n (_is_flush_required (w_this w));
                  ev_dispatch_sem_signal;
                  ev_return_append_entries_units n;
                  ev_unsuppress n], _.
      split; [|split; [reflexivity | discriminate]].
      rewrite <- !app_assoc. reflexivity.
    + cbn [fst snd w_this w_ptr w_now w_events].
      eexists _, [ev_update_node_append_timestamp n;
                  ev_get_append_entries_unit n;
                  ev_append_entries n (_is_flush_required (w_this w));
                  ev_dispatch_sem_signal;
                  ev_return_append_entries_units n;
                  ev_unsuppress n], _.
      split; [|split; [reflexivity | discriminate]].
      rewrite <- !app_assoc. reflexivity.
  - eexists _, [ev_update_node_append_timestamp n;
                ev_get_append_entries_unit n;
                ev_dispatch_sem_signal;
                ev_unsuppress n], _.
    split; [|split; [reflexivity | reflexivity]].
    rewrite <- !app_assoc. reflexivity.
Qed.

(** A follower's slot when the batches can be shared: the holder is
    refilled, and the request goes out as above. *)
Lemma dispatch_single_retry_shared (X : externals) (id : vnode) (w : world)
    (b r1 r2 : record_batch_reader) :
  id <> _self (w_ptr w) ->
  share_mutex_get_units X (w_ptr w) = resolved tt ->
  _batches (w_this w) = Some b ->
  foreign_share_n X b (w_ptr w) = resolved (r1, r2) ->
  exists c evs r,
    dispatch_single_retry X id w
    = (Returned r,
       mk_world c
         (set_hb_guards (<[id := false]> (_hb_guards (w_this w)))
            (set_dispatch_sem (_dispatch_sem (w_this w) + 1)
               (set_batches (Some r2) (w_this w))))
         (w_now w) (w_events w ++ evs))
    /\ count_events is_signal evs = 1%nat
    /\ (forall e,
          fst (get_append_entries_unit X id
                 (update_node_append_timestamp X id (w_ptr w))) = failed e ->
          r = err append_entries_dispatch_error).
Proof.
  intros Hid Hm Hb Hf.
  destruct (send_append_entries_request_run X id r1
              (with_this (set_batches (Some r2)) w))
    as (c & evs & r & Hrun & Hev & Hunit).
  exists c, evs, r. split; [|split; [exact Hev | exact Hunit]].
  unfold dispatch_single_retry. rewrite bind_ptr. cbn beta.
  destruct (decide (id = _self (w_ptr w))) as [Heq|_]; [contradiction|].
  rewrite (bind_returned _ _ _ _ _ (share_batches_run X w b r1 r2 Hm Hb Hf)).
  exact Hrun.
Qed.

(** A follower's slot when the batches cannot be shared: the dispatch
    throws what the sharing threw, and nothing has happened: no request,
    no signal. *)
Lemma dispatch_single_retry_unshared (X : externals) (id : vnode) (w : world)
    (e : exn) :
  id <> _self (w_ptr w) ->
  share_batches X w = (Threw e, w) ->
  dispatch_single_retry X id w = (Threw e, w).
Proof.
  intros Hid Hs.
  unfold dispatch_single_retry. rewrite bind_ptr. cbn beta.
  destruct (decide (id = _self (w_ptr w))) as [Heq|_]; [contradiction|].
  apply (bind_threw _ _ _ _ _ Hs).
Qed.

(** What any dispatch does to the round, whichever slot it serves: either
    it yields a result, with one permit and one signal, or it throws, with
    none. *)
Lemma dispatch_single_retry_advance (X : externals) (id : vnode) (w : world) :
  exists o w' k,
    dispatch_single_retry X id w = (o, w')
    /\ advanced 0 k w w'
    /\ ((k = 1%nat /\ exists r, o = Returned r)
        \/ (k = 0%nat /\ exists e, o = Threw e)).
Proof.
  destruct (decide (id = _self (w_ptr w))) as [Hid|Hid].
  - destruct (dispatch_single_retry_self X id w Hid)
      as (c & evs & r & Hrun & Hev).
    eexists _, _, 1%nat. split; [exact Hrun|]. split.
    + apply advanced_step; solve_advanced_step.
    + left. split; [reflexivity|]. exists r. reflexivity.
  - destruct (share_batches_cases X w)
      as [(b & r1 & r2 & Hm & Hb & Hf)|[e Hshare]].
    + destruct (dispatch_single_retry_shared X id w b r1 r2 Hid Hm Hb Hf)
        as (c & evs & r & Hrun & Hev & _).
      eexists _, _, 1%nat. split; [exact Hrun|]. split.
      * apply advanced_step; solve_advanced_step.
      * left. split; [reflexivity|]. exists r. reflexivity.
    + exists (Threw e), w, 0%nat.
      split; [|split; [apply advanced_refl|]].
      * apply (dispatch_single_retry_unshared X id w e Hid).
        apply Hshare; reflexivity.
      * right. split; [reflexivity|]. exists e. reflexivity.
Qed.

(** The reply routing that follows a dispatch adds no signal and leaves
    the state machine alone; it aborts only on a follower without a
    sequence number. A dispatch that threw is not routed. *)
Lemma dispatch_one_body_advance (X : externals) (id : vnode) (w : world) :
  exists o w' k,
    dispatch_one_body X id w = (o, w')
    /\ advanced 0 k w w'
    /\ (k <= 1)%nat
    /\ o <> Blocked.
Proof.
  destruct (dispatch_single_retry_advance X id w)
    as (o1 & w1 & k & Hrun & Hadv & Hout).
  assert (Hk : (k <= 1)%nat) by (destruct Hout as [[-> _]|[-> _]]; lia).
  unfold dispatch_one_body.
  destruct Hout as [[_ [r ->]]|[_ [e ->]]].
  - rewrite (bind_returned _ _ _ _ _ Hrun).
    assert (Hroute : forall evs c,
              count_events is_signal evs = 0%nat ->
              advanced 0 k w
                (mk_world c (w_this w1) (w_now w1) (w_events w1 ++ evs))).
    { intros evs c Hevs.
      replace k with (k + 0)%nat by lia.
      change 0%nat with (0 + 0)%nat at 1.
      apply (advanced_trans 0 k 0 0 w w1); [exact Hadv|].
      apply advanced_step; solve_advanced_step. }
    unfold_M. unfold with_event, with_this, with_ptr.
    cbn [fst snd w_this w_ptr w_now w_events].
    destruct (decide (id <> self (w_ptr w1))) as [Hne|Heq]; norm_world.
    + destruct (_followers_seq (w_this w1) !! id) as [seq|]; norm_world.
      * destruct (has_error r); norm_world;
          eexists _, _, k;
          (split; [rewrite <- ?app_assoc; reflexivity|]);
          (split; [apply Hroute; reflexivity|]);
          (split; [exact Hk | discriminate]).
      * exists Aborted, w1, k.
        split; [reflexivity|]. split; [exact Hadv|].
        split; [exact Hk | discriminate].
    + destruct (has_error r); norm_world;
        eexists _, _, k;
        (split; [rewrite <- ?app_assoc; reflexivity|]);
        (split; [apply Hroute; reflexivity|]);
        (split; [exact Hk | discriminate]).
  - rewrite (bind_threw _ _ _ _ _ Hrun).
    exists (Threw e), w1, k.
    split; [reflexivity|]. split; [exact Hadv|].
    split; [exact Hk | discriminate].
Qed.

(** [dispatch_one] behind an open gate: it returns a future, or an
    assertion has stopped the process; there is at most one signal. *)
Lemma dispatch_one_advance (X : externals) (id : vnode) (w : world) :
  _req_bg_closed (w_this w) = false ->
  exists o w' k,
    dispatch_one X id w = (o, w')
    /\ advanced 0 k w w'
    /\ (k <= 1)%nat
    /\ (o = Aborted \/ exists f, o = Returned f).
Proof.
  intros Hopen.
  destruct (dispatch_one_body_advance X id w)
    as (o1 & w1 & k & Hrun & Hadv & Hk & Hout).
  unfold dispatch_one, with_gate.
  unfold bind at 1. rewrite bind_this. cbn beta. rewrite Hopen.
  unfold futurize. rewrite Hrun.
  destruct o1 as [[]|e| |]; cbn [ret];
    try (eexists _, w1, k; split; [reflexivity|];
         split; [exact Hadv|]; split; [exact Hk|]).
  - right. eexists. reflexivity.
  - right. eexists. reflexivity.
  - left. reflexivity.
  - contradiction.
Qed.

(** A closed gate is not swallowed: [with_gate] throws before there is
    a future to attach the handler to. *)
Lemma dispatch_one_closed (X : externals) (id : vnode) (w : world) :
  _req_bg_closed (w_this w) = true ->
  dispatch_one X id w = (Threw gate_closed_exception, w).
Proof.
  intros Hclosed. unfold dispatch_one, with_gate.
  unfold bind at 1. rewrite bind_this. cbn beta. rewrite Hclosed.
  reflexivity.
Qed.

Lemma should_skip_follower_request_outcome (X : externals) (id : vnode)
    (w : world) :
  (exists b, should_skip_follower_request X id w = (Returned b, w))
  \/ should_skip_follower_request X id w = (Aborted, w).
Proof.
  rewrite (surjective_pairing (should_skip_follower_request X id w)).
  rewrite should_skip_follower_request_reads.
  destruct (_fstats (w_ptr w) !! id) as [f|] eqn:Hf.
  - destruct (_followers_seq (w_this w) !! id) as [seq|] eqn:Hs.
    + rewrite (should_skip_follower_request_found X id w f seq Hf Hs).
      left. eexists. reflexivity.
    + rewrite (should_skip_follower_request_no_seq X id w f Hf Hs).
      right. reflexivity.
  - rewrite (should_skip_follower_request_not_found X id w Hf).
    left. eexists. reflexivity.
Qed.

(** The bookkeeping before a dispatch, in the stats entry of the peer,
    touches the consensus object only. *)
Lemma dispatch_bookkeeping_run (rni : vnode) (w : world) :
  exists c,
    (if decide (rni <> self (w_ptr w)) then
       let* fstats := ptr _fstats in
       match fstats !! rni with
       | Some f =>
           let* dirty := this _dirty_offset in
           let* m := this _meta in
           set_ptr (set_fstats (<[rni := set_dispatched dirty m f]> fstats))
       | None => ret tt
       end
     else ret tt)%M w
    = (Returned tt, mk_world c (w_this w) (w_now w) (w_events w)).
Proof.
  destruct (decide (rni <> self (w_ptr w))) as [Hne|Heq].
  - rewrite bind_ptr. cbn beta.
    destruct (_fstats (w_ptr w) !! rni) as [f|].
    + rewrite !bind_this. cbn beta. eexists. reflexivity.
    + exists (w_ptr w). rewrite world_eta. reflexivity.
  - exists (w_ptr w). rewrite world_eta. reflexivity.
Qed.

(** One turn of the second loop of [apply], with the gate open, by what
    the policy answers: a skipped peer has its heartbeat guard released
    and is not counted; a peer that is not skipped is counted once and
    its dispatch runs, with at most one signal; a peer of the stats table
    without a sequence number stops the process. *)
Lemma dispatch_unless_skipped_cases (X : externals) (rni : vnode)
    (w : world) :
  _req_bg_closed (w_this w) = false ->
  (should_skip_follower_request X rni w = (Returned true, w)
   /\ dispatch_unless_skipped X rni w
      = (Returned tt,
         mk_world (w_ptr w)
           (set_hb_guards (<[rni := false]> (_hb_guards (w_this w)))
              (w_this w))
           (w_now w) (w_events w ++ [ev_unsuppress rni])))
  \/ (should_skip_follower_request X rni w = (Returned false, w)
      /\ exists o w' k,
           dispatch_unless_skipped X rni w = (o, w')
           /\ advanced 1 k w w'
           /\ (k <= 1)%nat
           /\ (o = Returned tt \/ o = Aborted))
  \/ (should_skip_follower_request X rni w = (Aborted, w)
      /\ dispatch_unless_skipped X rni w = (Aborted, w)).
Proof.
  intros Hopen.
  unfold dispatch_unless_skipped.
  destruct (should_skip_follower_request_outcome X rni w)
    as [[skip Hskip] | Hskip].
  - rewrite (bind_returned _ _ _ _ _ Hskip). destruct skip.
    + left. split; [exact Hskip|]. reflexivity.
    + right. left. split; [exact Hskip|].
      assert (Hcounted : forall c,
                exists o w' k,
                  bind (dispatch_one X rni) (fun _ => ret tt)
                    (mk_world c
                       (set_requests_count (_requests_count (w_this w) + 1)
                          (w_this w))
                       (w_now w) (w_events w))
                  = (o, w')
                  /\ advanced 1 k w w'
                  /\ (k <= 1)%nat
                  /\ (o = Returned tt \/ o = Aborted)).
      { intros c.
        match goal with
        | |- context [bind _ _ ?w1] =>
            destruct (dispatch_one_advance X rni w1 Hopen)
              as (o & w' & k & Hrun & Hadv & Hk & Hout);
            assert (Hfirst : advanced 1 0 w w1)
        end.
        { rewrite <- (app_nil_r (w_events w)).
          apply advanced_step; solve_advanced_step. }
        pose proof (advanced_trans _ _ _ _ _ _ _ Hfirst Hadv) as Hboth.
        cbn [Nat.add] in Hboth.
        destruct Hout as [->|[f ->]].
        - rewrite (bind_aborted _ _ _ _ Hrun).
          exists Aborted, w', k.
          split; [reflexivity|]. split; [exact Hboth|].
          split; [exact Hk|right; reflexivity].
        - rewrite (bind_returned _ _ _ _ _ Hrun).
          exists (Returned tt), w', k.
          split; [reflexivity|]. split; [exact Hboth|].
          split; [exact Hk|left; reflexivity]. }
      rewrite bind_ptr. cbn beta.
      destruct (dispatch_bookkeeping_run rni w) as [c Hstats].
      rewrite (bind_returned _ _ _ _ _ Hstats).
      rewrite bind_set_this. apply (Hcounted c).
  - right. right. split; [exact Hskip|].
    apply (bind_aborted _ _ _ _ Hskip).
Qed.

Lemma dispatch_unless_skipped_advance (X : externals) (rni : vnode)
    (w : world) :
  _req_bg_closed (w_this w) = false ->
  exists o w' n k,
    dispatch_unless_skipped X rni w = (o, w')
    /\ advanced n k w w'
    /\ (k <= n)%nat /\ (n <= 1)%nat
    /\ (o = Returned tt \/ o = Aborted).
Proof.
  intros Hopen.
  destruct (dispatch_unless_skipped_cases X rni w Hopen)
    as [[_ Hrun]|[[_ (o & w' & k & Hrun & Hadv & Hk & Hout)]|[_ Hrun]]].
  - eexists _, _, 0%nat, 0%nat. split; [exact Hrun|].
    split; [|split; [lia|split; [lia|left; reflexivity]]].
    apply advanced_step; solve_advanced_step.
  - exists o, w', 1%nat, k. split; [exact Hrun|].
    split; [exact Hadv|]. split; [exact Hk|]. split; [lia|exact Hout].
  - exists Aborted, w, 0%nat, 0%nat.
    split; [exact Hrun|]. split; [apply advanced_refl|].
    split; [lia|]. split; [lia|right; reflexivity].
Qed.

(** The second loop of [apply], with the gate open: never more signals
    than counted peers, never more counted peers than brokers. *)
Lemma dispatch_loop_advance (X : externals) (cfg : list vnode) (w : world) :
  _req_bg_closed (w_this w) = false ->
  exists o w' n k,
    for_each (dispatch_unless_skipped X) cfg w = (o, w')
    /\ advanced n k w w'
    /\ (k <= n)%nat /\ (n <= length cfg)%nat
    /\ (o = Returned tt \/ o = Aborted).
Proof.
  revert w. induction cfg as [|rni cfg IH]; intros w Hopen.
  - exists (Returned tt), w, 0%nat, 0%nat.
    split; [reflexivity|]. split; [apply advanced_refl|].
    split; [lia|]. split; [cbn; lia|left; reflexivity].
  - cbn [for_each].
    destruct (dispatch_unless_skipped_advance X rni w Hopen)
      as (o1 & w1 & n1 & k1 & Hrun1 & Hadv1 & Hk1 & Hn1 & Hout1).
    destruct Hout1 as [-> | ->].
    + rewrite (bind_returned _ _ _ _ _ Hrun1).
      assert (Hopen1 : _req_bg_closed (w_this w1) = false)
        by (rewrite (adv_req_bg_closed _ _ _ _ Hadv1); exact Hopen).
      destruct (IH w1 Hopen1)
        as (o & w' & n & k & Hrun & Hadv & Hk & Hn & Hout).
      exists o, w', (n1 + n)%nat, (k1 + k)%nat.
      split; [exact Hrun|].
      split; [apply (advanced_trans _ _ _ _ _ _ _ Hadv1 Hadv)|].
      split; [lia|]. split; [cbn [length]; lia|exact Hout].
    + rewrite (bind_aborted _ _ _ _ Hrun1).
      exists Aborted, w1, n1, k1.
      split; [reflexivity|]. split; [exact Hadv1|].
      split; [exact Hk1|]. split; [cbn [length]; lia|right; reflexivity].
Qed.

(** *** The round *)

(** A self append that works: the holder is refilled, the events have no
    signal among them. *)
Lemma append_to_self_ok (X : externals) (w : world)
    (b r1 r2 : record_batch_reader) (res : append_result) :
  share_mutex_get_units X (w_ptr w) = resolved tt ->
  _batches (w_this w) = Some b ->
  foreign_share_n X b (w_ptr w) = resolved (r1, r2) ->
  fst (disk_append X r1 (_is_flush_required (w_this w))
         (set_last_write_consistency_level
            (if _is_flush_required (w_this w) then quorum_ack else leader_ack)
            (w_ptr w)))
  = resolved res ->
  exists c evs,
    append_to_self X w
    = (Returned (ok res),
       mk_world c (set_batches (Some r2) (w_this w)) (w_now w)
         (w_events w ++ evs))
    /\ count_events is_signal evs = 0%nat.
Proof.
  intros Hm Hb Hf Hok.
  pose proof (append_to_self_run X w b r1 r2 Hm Hb Hf) as Hrun.
  cbv zeta in Hrun. rewrite Hok in Hrun. rewrite Hrun.
  match goal with
  | |- context [if ?t then _ else _] => destruct t
  end.
  - eexists _, [ev_disk_append _; ev_maybe_update_majority_replicated_index].
    split; [|reflexivity].
    rewrite <- app_assoc. reflexivity.
  - eexists _, [ev_disk_append _]. split; reflexivity.
Qed.

(** The release of the batches and the units proceeds once the semaphore
    holds a permit for every counted peer, and not before. *)
Lemma release_after_dispatch_run (w : world) :
  release_after_dispatch w
  = if _dispatch_sem (w_this w) <? _requests_count (w_this w)
    then (Blocked, w)
    else (Returned tt,
          mk_world (w_ptr w)
            (set_units None
               (set_batches None
                  (set_dispatch_sem
                     (_dispatch_sem (w_this w) - _requests_count (w_this w))
                     (w_this w))))
            (w_now w) (w_events w)).
Proof.
  unfold release_after_dispatch. rewrite !bind_this. cbn beta.
  destruct (_dispatch_sem (w_this w) <? _requests_count (w_this w));
    reflexivity.
Qed.

(** The end of [apply]: the release is started behind the open gate and
    stays there when permits are missing; the result of the round is
    built from the stored append result. *)
Lemma apply_tail (X : externals) (w : world) (res : append_result) :
  _req_bg_closed (w_this w) = false ->
  _append_result (w_this w) = Some (ok res) ->
  bind (spawn_with_gate task_release_after_dispatch release_after_dispatch)
    (fun _ => build_replicate_result) w
  = (Returned (ok {| rr_last_offset := last_offset res |}),
     if _dispatch_sem (w_this w) <? _requests_count (w_this w)
     then
       mk_world (w_ptr w)
         (set_req_bg_tasks
            (_req_bg_tasks (w_this w) ++ [task_release_after_dispatch])
            (w_this w))
         (w_now w) (w_events w)
     else
       mk_world (w_ptr w)
         (set_units None
            (set_batches None
               (set_dispatch_sem
                  (_dispatch_sem (w_this w) - _requests_count (w_this w))
                  (w_this w))))
         (w_now w) (w_events w)).
Proof.
  intros Hopen Hres.
  unfold spawn_with_gate. unfold bind at 1. rewrite bind_this. cbn beta.
  rewrite Hopen. rewrite release_after_dispatch_run.
  destruct (_dispatch_sem (w_this w) <? _requests_count (w_this w)).
  - unfold build_replicate_result. rewrite bind_this. cbn beta.
    unfold with_this. cbn [w_this w_ptr w_now w_events].
    stm_fields. rewrite Hres. reflexivity.
  - unfold build_replicate_result. rewrite bind_this. cbn beta.
    cbn [w_this w_ptr w_now w_events].
    stm_fields. rewrite Hres. reflexivity.
Qed.

(** A round whose self append works, behind an open gate: unless an
    assertion stops it, [apply] returns the appended offset; there are
    never more signals than counted peers; with a signal for every
    counted peer the batches and the units are released before [apply]
    returns, and with fewer the release stays behind, holding both. *)
Lemma apply_self_append_succeeded (X : externals) (u : list Z) (w : world)
    (b r1 r2 : record_batch_reader) (res : append_result) :
  share_mutex_get_units X (w_ptr w) = resolved tt ->
  _batches (w_this w) = Some b ->
  foreign_share_n X b (w_ptr w) = resolved (r1, r2) ->
  _req_bg_closed (w_this w) = false ->
  fst (disk_append X r1 (_is_flush_required (w_this w))
         (set_last_write_consistency_level
            (if _is_flush_required (w_this w) then quorum_ack else leader_ack)
            (w_ptr w)))
  = resolved res ->
  fst (apply X u w) = Aborted
  \/ exists n k,
       (k <= n)%nat /\ (n <= length (_config (w_ptr w)))%nat
       /\ fst (apply X u w)
          = Returned (ok {| rr_last_offset := last_offset res |})
       /\ _requests_count (w_this (snd (apply X u w)))
          = _requests_count (w_this w) + Z.of_nat n
       /\ count_events is_signal (w_events (snd (apply X u w)))
          = (count_events is_signal (w_events w) + k)%nat
       /\ _append_result (w_this (snd (apply X u w))) = Some (ok res)
       /\ _dirty_offset (w_this (snd (apply X u w))) = last_offset res
       /\ (if _dispatch_sem (w_this w) + Z.of_nat k
              <? _requests_count (w_this w) + Z.of_nat n
           then
             _dispatch_sem (w_this (snd (apply X u w)))
             = _dispatch_sem (w_this w) + Z.of_nat k
             /\ _req_bg_tasks (w_this (snd (apply X u w)))
                = _req_bg_tasks (w_this w) ++ [task_release_after_dispatch]
             /\ has_value (_batches (w_this (snd (apply X u w)))) = true
             /\ _units (w_this (snd (apply X u w))) = Some u
           else
             _dispatch_sem (w_this (snd (apply X u w)))
             = _dispatch_sem (w_this w) + Z.of_nat k
               - (_requests_count (w_this w) + Z.of_nat n)
             /\ _req_bg_tasks (w_this (snd (apply X u w)))
                = _req_bg_tasks (w_this w)
             /\ _batches (w_this (snd (apply X u w))) = None
             /\ _units (w_this (snd (apply X u w))) = None).
Proof.
  intros Hm Hb Hf Hopen Hok.
  destruct (suppress_loop_run (_config (w_ptr w)) w) as [g0 Hg].
  destruct (apply X u w) as [o w'] eqn:Hres. cbn [fst snd].
  unfold apply in Hres. mstep_in Hres.
  rewrite (bind_returned _ _ _ _ _ Hg) in Hres. mstep_in Hres.
  match type of Hres with
  | context [bind (append_to_self X) _ ?w1] =>
      destruct (append_to_self_ok X w1 b r1 r2 res Hm Hb Hf Hok)
        as (cA & evsA & Happ & HevA)
  end.
  rewrite (bind_returned _ _ _ _ _ Happ) in Hres. clear Happ.
  set (evs0 := map ev_suppress_heartbeats
                 (filter (fun n => n <> _self (w_ptr w))
                    (_config (w_ptr w)))) in *.
  assert (Hev0 : count_events is_signal evs0 = 0%nat)
    by apply count_signals_suppress.
  do 7 mstep_in Hres.
  match type of Hres with
  | context [bind (for_each (dispatch_unless_skipped _) _) _ ?w2] =>
      destruct (dispatch_loop_advance X (_config (w_ptr w)) w2 Hopen)
        as (o1 & w3 & n & k & Hloop & Hadv & Hk & Hn & Ho)
  end.
  destruct Ho as [-> | ->].
  - rewrite (bind_returned _ _ _ _ _ Hloop) in Hres. clear Hloop.
    destruct Hadv as [Hrc Hsem Hsig Hbat Hcl Htasks Hunits Hres3 Hdirty].
    cbn [w_this w_events] in Hrc, Hsem, Hsig, Hbat, Hcl, Htasks, Hunits,
      Hres3, Hdirty.
    revert Hrc Hsem Hsig Hbat Hcl Htasks Hunits Hres3 Hdirty. stm_fields.
    intros Hrc Hsem Hsig Hbat Hcl Htasks Hunits Hres3 Hdirty.
    rewrite (apply_tail X w3 res) in Hres
      by (first [rewrite Hcl; exact Hopen | exact Hres3]).
    injection Hres as <- <-.
    right. exists n, k.
    split; [exact Hk|]. split; [exact Hn|]. split; [reflexivity|].
    rewrite Hrc, Hsem.
    rewrite !count_events_app, Hev0, HevA in Hsig.
    destruct (_dispatch_sem (w_this w) + Z.of_nat k
              <? _requests_count (w_this w) + Z.of_nat n);
      cbn [w_this w_events]; stm_fields;
      (split; [exact Hrc|]); (split; [rewrite Hsig; lia|]);
      (split; [exact Hres3|]); (split; [exact Hdirty|]).
    + split; [exact Hsem|]. split; [rewrite Htasks; reflexivity|].
      split; [apply Hbat; reflexivity | exact Hunits].
    + split; [reflexivity|].
      split; [exact Htasks|]. split; reflexivity.
  - rewrite (bind_aborted _ _ _ _ Hloop) in Hres.
    injection Hres as <- <-. left. reflexivity.
Qed.

(** A dispatch that threw, behind an open gate: [dispatch_one] returns a
    future that holds the exception, which its caller drops. *)
Lemma dispatch_one_threw (X : externals) (id : vnode) (w w' : world)
    (e : exn) :
  _req_bg_closed (w_this w) = false ->
  dispatch_single_retry X id w = (Threw e, w') ->
  dispatch_one X id w = (Returned (handle_gate_closed (failed e)), w').
Proof.
  intros Hopen Hrun. unfold dispatch_one, with_gate.
  unfold bind at 1. rewrite bind_this. cbn beta. rewrite Hopen.
  unfold futurize, dispatch_one_body.
  rewrite (bind_threw _ _ _ _ _ Hrun). reflexivity.
Qed.

(** A fresh round whose [apply] returned. *)
Lemma fresh_round_returned (X : externals) (r : append_entries_request)
    (seqs : gmap vnode Z) (c : consensus) (now : Z) (u : list Z)
    (res : result replicate_result) :
  fst (apply X u (mk_world c (replicate_entries_stm X r seqs) now []))
  = Returned res ->
  exists n k,
    (k <= n)%nat /\ (n <= length (_config c))%nat
    /\ _requests_count
         (w_this (snd (apply X u
                         (mk_world c (replicate_entries_stm X r seqs) now []))))
       = Z.of_nat n
    /\ count_events is_signal
         (w_events (snd (apply X u
                           (mk_world c (replicate_entries_stm X r seqs)
                              now []))))
       = k
    /\ (if Z.of_nat k <? Z.of_nat n
        then
          _dispatch_sem
            (w_this (snd (apply X u
                            (mk_world c (replicate_entries_stm X r seqs)
                               now []))))
          = Z.of_nat k
          /\ _req_bg_tasks
               (w_this (snd (apply X u
                               (mk_world c (replicate_entries_stm X r seqs)
                                  now []))))
             = [task_release_after_dispatch]
          /\ has_value
               (_batches
                  (w_this (snd (apply X u
                                  (mk_world c (replicate_entries_stm X r seqs)
                                     now [])))))
             = true
          /\ _units
               (w_this (snd (apply X u
                               (mk_world c (replicate_entries_stm X r seqs)
                                  now []))))
             = Some u
        else
          _dispatch_sem
            (w_this (snd (apply X u
                            (mk_world c (replicate_entries_stm X r seqs)
                               now []))))
          = Z.of_nat k - Z.of_nat n
          /\ _req_bg_tasks
               (w_this (snd (apply X u
                               (mk_world c (replicate_entries_stm X r seqs)
                                  now []))))
             = []
          /\ _batches
               (w_this (snd (apply X u
                               (mk_world c (replicate_entries_stm X r seqs)
                                  now []))))
             = None
          /\ _units
               (w_this (snd (apply X u
                               (mk_world c (replicate_entries_stm X r seqs)
                                  now []))))
             = None).
Proof.
  set (w0 := mk_world c (replicate_entries_stm X r seqs) now []).
  intros Hret.
  assert (Hopen : _req_bg_closed (w_this w0) = false) by reflexivity.
  destruct (share_batches_cases X w0)
    as [(b & r1 & r2 & Hm & Hb & Hf)|[e Hshare]].
  - destruct (fst (disk_append X r1 (_is_flush_required (w_this w0))
                     (set_last_write_consistency_level
                        (if _is_flush_required (w_this w0)
                         then quorum_ack else leader_ack) (w_ptr w0))))
      as [ar|e] eqn:Hattempt.
    + destruct (apply_self_append_succeeded X u w0 b r1 r2 ar
                  Hm Hb Hf Hopen Hattempt)
        as [Habort | (n & k & Hk & Hn & _ & Hrc & Hsig & _ & _ & Hend)].
      * rewrite Habort in Hret. discriminate.
      * exists n, k. split; [exact Hk|]. split; [exact Hn|].
        split; [exact Hrc|]. split; [exact Hsig|]. exact Hend.
    + destruct (apply_self_append_failed X u w0 b r1 r2 e Hm Hb Hf Hattempt)
        as [g Hrun].
      rewrite Hrun in Hret. discriminate.
  - destruct (apply_sharing_failed X u w0 e Hshare) as [g Hrun].
    rewrite Hrun in Hret. discriminate.
Qed.

(** C4 does not hold of the code. The leader's slot signals
    [_dispatch_sem] once, and so does a request to a follower once its
    batches are there, however the unit acquisition and the RPC end; a
    failed unit acquisition yields [append_entries_dispatch_error]. But
    the dispatch to a follower starts by sharing the batches, and only
    the continuation of that carries the scoped release: when the sharing
    fails (the mutex, or the copying of the reader) the dispatch throws
    with no signal at all, and [dispatch_one] drops the failure, while
    the peer has been counted in [_requests_count]. In a round that runs
    every dispatch to its end inside [apply], there are then fewer
    signals than counted peers when [apply] returns, and the release of
    the batches and the units stays behind the gate, holding both; it is
    only with a signal for every counted peer that they are released. *)
Theorem dispatch_signals_once (X : externals) :
  (forall id w,
     id = _self (w_ptr w) ->
     (exists r, fst (dispatch_single_retry X id w) = Returned r)
     /\ _dispatch_sem (w_this (snd (dispatch_single_retry X id w)))
        = _dispatch_sem (w_this w) + 1
     /\ count_events is_signal
          (w_events (snd (dispatch_single_retry X id w)))
        = S (count_events is_signal (w_events w)))
  /\ (forall n batches w,
        (exists r,
           fst (send_append_entries_request X n batches w) = Returned r)
        /\ _dispatch_sem
             (w_this (snd (send_append_entries_request X n batches w)))
           = _dispatch_sem (w_this w) + 1
        /\ count_events is_signal
             (w_events (snd (send_append_entries_request X n batches w)))
           = S (count_events is_signal (w_events w))
        /\ forall e,
             fst (get_append_entries_unit X n
                    (update_node_append_timestamp X n (w_ptr w)))
             = failed e ->
             fst (send_append_entries_request X n batches w)
             = Returned (err append_entries_dispatch_error))
  /\ (forall id w b r1 r2,
        id <> _self (w_ptr w) ->
        share_mutex_get_units X (w_ptr w) = resolved tt ->
        _batches (w_this w) = Some b ->
        foreign_share_n X b (w_ptr w) = resolved (r1, r2) ->
        (exists r, fst (dispatch_single_retry X id w) = Returned r)
        /\ _dispatch_sem (w_this (snd (dispatch_single_retry X id w)))
           = _dispatch_sem (w_this w) + 1
        /\ count_events is_signal
             (w_events (snd (dispatch_single_retry X id w)))
           = S (count_events is_signal (w_events w)))
  /\ (forall id w e,
        id <> _self (w_ptr w) ->
        share_mutex_get_units X (w_ptr w) = failed e
        \/ (exists b,
              share_mutex_get_units X (w_ptr w) = resolved tt
              /\ _batches (w_this w) = Some b
              /\ foreign_share_n X b (w_ptr w) = failed e) ->
        dispatch_single_retry X id w = (Threw e, w)
        /\ (_req_bg_closed (w_this w) = false ->
            dispatch_one X id w
            = (Returned (handle_gate_closed (failed e)), w)))
  /\ (forall r seqs c now u res,
        fst (apply X u (mk_world c (replicate_entries_stm X r seqs) now []))
        = Returned res ->
        let w1 :=
          snd (apply X u
                 (mk_world c (replicate_entries_stm X r seqs) now [])) in
        let signals := Z.of_nat (count_events is_signal (w_events w1)) in
        signals <= _requests_count (w_this w1)
        /\ (signals = _requests_count (w_this w1) ->
            _dispatch_sem (w_this w1) = 0
            /\ _req_bg_tasks (w_this w1) = []
            /\ _batches (w_this w1) = None
            /\ _units (w_this w1) = None)
        /\ (signals < _requests_count (w_this w1) ->
            _dispatch_sem (w_this w1) = signals
            /\ _req_bg_tasks (w_this w1) = [task_release_after_dispatch]
            /\ has_value (_batches (w_this w1)) = true
            /\ _units (w_this w1) = Some u)).
Proof.
  split; [|split; [|split; [|split]]].
  - intros id w Hid.
    destruct (dispatch_single_retry_self X id w Hid)
      as (c & evs & r & Hrun & Hev).
    rewrite Hrun. cbn [fst snd w_this w_events]. stm_fields.
    split; [exists r; reflexivity|]. split; [reflexivity|].
    rewrite count_events_app, Hev. lia.
  - intros n batches w.
    destruct (send_append_entries_request_run X n batches w)
      as (c & evs & r & Hrun & Hev & Hunit).
    rewrite Hrun. cbn [fst snd w_this w_events]. stm_fields.
    split; [exists r; reflexivity|]. split; [reflexivity|].
    split; [rewrite count_events_app, Hev; lia|].
    intros e Hfail. rewrite (Hunit e Hfail). reflexivity.
  - intros id w b r1 r2 Hid Hm Hb Hf.
    destruct (dispatch_single_retry_shared X id w b r1 r2 Hid Hm Hb Hf)
      as (c & evs & r & Hrun & Hev & _).
    rewrite Hrun. cbn [fst snd w_this w_events]. stm_fields.
    split; [exists r; reflexivity|]. split; [reflexivity|].
    rewrite count_events_app, Hev. lia.
  - intros id w e Hid Hcause.
    assert (Hshare : share_batches X w = (Threw e, w)).
    { destruct Hcause as [Hm|(b & Hm & Hb & Hf)].
      - apply (share_batches_mutex_failed X w e Hm).
      - apply (share_batches_copy_failed X w b e Hm Hb Hf). }
    pose proof (dispatch_single_retry_unshared X id w e Hid Hshare) as Hrun.
    split; [exact Hrun|].
    intros Hopen. apply (dispatch_one_threw X id w w e Hopen Hrun).
  - intros r seqs c now u res Hret w1 signals.
    destruct (fresh_round_returned X r seqs c now u res Hret)
      as (n & k & Hk & _ & Hrc & Hsig & Hend).
    fold w1 in Hrc, Hsig, Hend. subst signals.
    rewrite Hsig, Hrc.
    destruct (Z.of_nat k <? Z.of_nat n) eqn:Hlt.
    + apply Z.ltb_lt in Hlt.
      destruct Hend as (Hsem & Htasks & Hb & Hu).
      split; [lia|]. split; [lia|]. intros _.
      repeat split; assumption.
    + apply Z.ltb_ge in Hlt.
      destruct Hend as (Hsem & Htasks & Hb & Hu).
      split; [lia|]. split; [|lia]. intros _.
      split; [lia|]. repeat split; assumption.
Qed.

(** The sample round when the batches cannot be copied for follower [n2]:
    the leader's slot has signalled, [n2] is counted and has not, and the
    release holds the batches and the units behind the gate. *)
Lemma dispatch_signals_once_witness :
  _dispatch_sem
    (w_this (snd (apply share_failing [1] (sample_world share_failing))))
  = 1
  /\ _req_bg_tasks
       (w_this (snd (apply share_failing [1] (sample_world share_failing))))
     = [task_release_after_dispatch]
  /\ has_value
       (_batches
          (w_this (snd (apply share_failing [1]
                          (sample_world share_failing)))))
     = true
  /\ _units
       (w_this (snd (apply share_failing [1] (sample_world share_failing))))
     = Some [1].
Proof.
  apply (proj2 (proj2
           (proj2 (proj2 (proj2 (proj2 (dispatch_signals_once share_failing))))
              sample_request sample_seqs sample_consensus 1000 [1]
              (ok {| rr_last_offset := 42 |}) eq_refl))
           eq_refl).
Defined.

(** ** Further properties of the round *)

(** *** The batch holder *)



(** *** The self append, further *)

(** X2: [append_to_self] never throws, aborts or blocks, and leaves the
    clock alone. When it returns an append result, the batches were
    shared, the disk append on the shared reader resolved with that
    result, and of the state machine the holder alone has changed. The
    only error it returns is [leader_append_failed], whatever the
    exception behind it. *)
Theorem append_to_self_never_throws (X : externals) (w : world) :
  (exists r, fst (append_to_self X w) = Returned r)
  /\ w_now (snd (append_to_self X w)) = w_now w
  /\ (forall res,
        fst (append_to_self X w) = Returned (ok res) ->
        exists b r1 r2,
          share_mutex_get_units X (w_ptr w) = resolved tt
          /\ _batches (w_this w) = Some b
          /\ foreign_share_n X b (w_ptr w) = resolved (r1, r2)
          /\ fst (disk_append X r1 (_is_flush_required (w_this w))
                    (set_last_write_consistency_level
                       (if _is_flush_required (w_this w)
                        then quorum_ack else leader_ack) (w_ptr w)))
             = resolved res
          /\ w_this (snd (append_to_self X w))
             = set_batches (Some r2) (w_this w))
  /\ (forall e,
        fst (append_to_self X w) = Returned (err e) ->
        e = leader_append_failed).
Proof.
  destruct (share_batches_cases X w)
    as [(b & r1 & r2 & Hm & Hb & Hf)|[e Hshare]].
  - pose proof (append_to_self_run X w b r1 r2 Hm Hb Hf) as Hrun.
    cbv zeta in Hrun. rewrite Hrun.
    destruct (fst (disk_append X r1 (_is_flush_required (w_this w))
                     (set_last_write_consistency_level
                        (if _is_flush_required (w_this w)
                         then quorum_ack else leader_ack) (w_ptr w))))
      as [res|e] eqn:Hattempt.
    + cbn [fst snd].
      split; [eexists; reflexivity|].
      split; [destruct (_commit_index _ >=? _); reflexivity|].
      split; [|discriminate].
      intros res' [= <-]. exists b, r1, r2.
      split; [exact Hm|]. split; [exact Hb|]. split; [exact Hf|].
      split; [exact Hattempt|].
      destruct (_commit_index _ >=? _); reflexivity.
    + cbn [fst snd w_this w_now].
      split; [eexists; reflexivity|]. split; [reflexivity|].
      split; [discriminate|]. intros e' [= <-]. reflexivity.
  - rewrite (append_to_self_unshared X w e (Hshare w eq_refl eq_refl)).
    cbn [fst snd].
    split; [eexists; reflexivity|]. split; [reflexivity|].
    split; [discriminate|]. intros e' [= <-]. reflexivity.
Qed.

(** The sample round, appended up to offset 42 in term 5. *)
Lemma append_to_self_never_throws_witness :
  exists b r1 r2,
    share_mutex_get_units healthy (w_ptr (sample_world healthy)) = resolved tt
    /\ _batches (w_this (sample_world healthy)) = Some b
    /\ foreign_share_n healthy b (w_ptr (sample_world healthy))
       = resolved (r1, r2)
    /\ fst (disk_append healthy r1
              (_is_flush_required (w_this (sample_world healthy)))
              (set_last_write_consistency_level
                 (if _is_flush_required (w_this (sample_world healthy))
                  then quorum_ack else leader_ack)
                 (w_ptr (sample_world healthy))))
       = resolved (mk_append_result 42 5)
    /\ w_this (snd (append_to_self healthy (sample_world healthy)))
       = set_batches (Some r2) (w_this (sample_world healthy)).
Proof.
  apply (proj1 (proj2 (proj2
           (append_to_self_never_throws healthy (sample_world healthy))))
           (mk_append_result 42 5) eq_refl).
Defined.

(** X3: after a successful disk append the visibility upper bound is
    raised to [max(bound, last_offset)], and the majority index
    re-evaluated, exactly when the commit index has caught up with the last
    quorum replicated index; otherwise neither happens. Provided
    [maybe_update_majority_replicated_index] does not write the bound
    itself, the self append therefore never lowers it, and it covers the
    appended offset whenever the commit index had caught up. *)
Theorem append_to_self_visibility (X : externals) (w : world)
    (b r1 r2 : record_batch_reader) (res : append_result) :
  share_mutex_get_units X (w_ptr w) = resolved tt ->
  _batches (w_this w) = Some b ->
  foreign_share_n X b (w_ptr w) = resolved (r1, r2) ->
  let attempt :=
    disk_append X r1 (_is_flush_required (w_this w))
      (set_last_write_consistency_level
         (if _is_flush_required (w_this w) then quorum_ack else leader_ack)
         (w_ptr w)) in
  fst attempt = resolved res ->
  let caught_up :=
    _commit_index (snd attempt)
    >=? _last_quorum_replicated_index (snd attempt) in
  let after := snd (append_to_self X w) in
  count_events is_majority_update (w_events after)
  = (count_events is_majority_update (w_events w)
     + if caught_up then 1 else 0)%nat
  /\ (caught_up = false -> w_ptr after = snd attempt)
  /\ ((forall c,
         _visibility_upper_bound_index
           (maybe_update_majority_replicated_index X c)
         = _visibility_upper_bound_index c) ->
      _visibility_upper_bound_index (w_ptr after)
      = (if caught_up
         then Z.max (_visibility_upper_bound_index (snd attempt))
                (last_offset res)
         else _visibility_upper_bound_index (snd attempt))
      /\ _visibility_upper_bound_index (snd attempt)
         <= _visibility_upper_bound_index (w_ptr after)
      /\ (caught_up = true ->
          last_offset res <= _visibility_upper_bound_index (w_ptr after))).
Proof.
  intros Hm Hb Hf attempt Hok caught_up after.
  pose proof (append_to_self_run X w b r1 r2 Hm Hb Hf) as Hrun.
  cbv zeta in Hrun.
  fold attempt in Hrun. rewrite Hok in Hrun. fold caught_up in Hrun.
  subst after. rewrite Hrun. clear Hrun.
  destruct caught_up; cbn [snd w_events w_ptr].
  - split; [|split; [discriminate|]].
    + rewrite !count_events_app.
      change (count_events is_majority_update
                [ev_disk_append (_is_flush_required (w_this w))])
        with 0%nat.
      change (count_events is_majority_update
                [ev_maybe_update_majority_replicated_index])
        with 1%nat.
      lia.
    + intros Hframe. rewrite Hframe.
      cbn [_visibility_upper_bound_index set_visibility_upper_bound_index].
      repeat split; lia.
  - split; [|split; [reflexivity|]].
    + rewrite count_events_app.
      change (count_events is_majority_update
                [ev_disk_append (_is_flush_required (w_this w))])
        with 0%nat.
      lia.
    + intros _. repeat split; [lia | discriminate].
Qed.

(** The sample round: bound 39, commit index and last quorum index 39,
    append ending at 42. *)
Lemma append_to_self_visibility_witness :
  _visibility_upper_bound_index
    (w_ptr (snd (append_to_self healthy (sample_world healthy))))
  = 42.
Proof.
  apply (proj1 (proj2 (proj2
           (append_to_self_visibility healthy (sample_world healthy)
              [40; 41; 42] [40; 41; 42] [40; 41; 42] (mk_append_result 42 5)
              eq_refl eq_refl eq_refl eq_refl))
           ltac:(intros; reflexivity))).
Defined.

(** *** The skip policy, further *)

(** X4: the skip policy is monotone in time: a peer that is skipped now is
    skipped at every later reading of the clock, as long as its entry in
    the stats table and the request stay the same. *)
Theorem skipped_stays_skipped (X : externals) (id : vnode) (w : world)
    (later : Z) :
  w_now w <= later ->
  fst (should_skip_follower_request X id w) = Returned true ->
  fst (should_skip_follower_request X id (at_time later w)) = Returned true.
Proof.
  intros Hlater Hskip.
  destruct (_fstats (w_ptr w) !! id) as [f|] eqn:Hf.
  - destruct (_followers_seq (w_this w) !! id) as [seq|] eqn:Hs.
    + rewrite (should_skip_follower_request_found X id w f seq Hf Hs) in Hskip.
      rewrite (should_skip_follower_request_found X id (at_time later w) f seq
                 Hf Hs).
      cbn [at_time w_now w_ptr w_this].
      injection Hskip as Hskip. f_equal.
      apply negb_true_iff in Hskip. apply negb_true_iff.
      apply orb_false_iff in Hskip. destruct Hskip as [Hfirst Hchecks].
      rewrite Hfirst. cbn [orb].
      apply andb_false_iff in Hchecks. apply andb_false_iff.
      destruct Hchecks as [Hstale|Hoffset]; [left|right; exact Hoffset].
      apply negb_false_iff in Hstale. apply negb_false_iff.
      apply Z.ltb_lt in Hstale. apply Z.ltb_lt. lia.
    + rewrite (should_skip_follower_request_no_seq X id w f Hf Hs) in Hskip.
      discriminate.
  - rewrite (should_skip_follower_request_not_found X id w Hf) in Hskip.
    discriminate.
Qed.

Lemma skipped_stays_skipped_witness :
  fst (should_skip_follower_request healthy n3
         (at_time 5000 (sample_world healthy)))
  = Returned true.
Proof.
  apply (skipped_stays_skipped healthy n3 (sample_world healthy) 5000).
  - vm_compute. discriminate.
  - vm_compute. reflexivity.
Defined.

(** *** The commit wait, further *)

(** X5: [process_result] on its own, for a round whose self append
    succeeded: it only reads, and its assertion aborts exactly when the
    entry passes the truncation check (the term is unchanged, or the term
    at the appended offset is still the appended one) although the commit
    index is below the appended offset. *)
Theorem process_result_aborts_iff (ar : append_result) (appended_term : Z)
    (w : world) :
  _append_result (w_this w) = Some (ok ar) ->
  snd (process_result (last_offset ar) appended_term w) = w
  /\ (fst (process_result (last_offset ar) appended_term w) = Aborted
      <-> ((current_term (w_ptr w) = appended_term
            \/ _log_term (w_ptr w) (last_offset ar) = appended_term)
           /\ _commit_index (w_ptr w) < last_offset ar)).
Proof.
  intros Har. rewrite (process_result_run ar appended_term w Har).
  split; [reflexivity|]. cbn [fst].
  destruct (appended_term =? current_term (w_ptr w)) eqn:Ht;
    destruct (_log_term (w_ptr w) (last_offset ar) =? appended_term) eqn:Hl;
    destruct (last_offset ar <=? _commit_index (w_ptr w)) eqn:Hc;
    cbn [negb andb];
    first [apply Z.eqb_eq in Ht | apply Z.eqb_neq in Ht];
    first [apply Z.eqb_eq in Hl | apply Z.eqb_neq in Hl];
    first [apply Z.leb_le in Hc | apply Z.leb_gt in Hc];
    (split;
      [intros H;
       first [discriminate
             | split; [first [left; congruence | right; congruence] | lia]]
      |intros [[H|H] Hlt]; first [reflexivity | lia | congruence]]).
Qed.

Lemma process_result_aborts_iff_witness :
  fst (process_result 42 5 appended_world) = Aborted.
Proof.
  apply (proj2 (process_result_aborts_iff (mk_append_result 42 5) 5
                  appended_world eq_refl)).
  vm_compute. split; [left; reflexivity | reflexivity].
Defined.

Lemma wait_end_of_frame (pred : world -> bool) (evs : list cv_event)
    (w : world) :
  match wait_end_of pred evs w with
  | woken w' | broken w' | asleep w' =>
      w_this w' = w_this w /\ w_now w' = w_now w
      /\ w_events w' = w_events w
      /\ (w_ptr w' = w_ptr w \/ In (cv_signalled (w_ptr w')) evs)
  end.
Proof.
  revert w. induction evs as [|e evs IH]; intros w; cbn [wait_end_of].
  - destruct (pred w); auto.
  - destruct (pred w); [auto|].
    destruct e as [c|]; [|auto].
    specialize (IH (with_ptr (fun _ => c) w)).
    destruct (wait_end_of pred evs (with_ptr (fun _ => c) w)) as [w'|w'|w'];
      cbn [with_ptr w_this w_now w_events w_ptr] in IH;
      destruct IH as (H1 & H2 & H3 & [H4|H4]);
      (repeat split; [assumption .. |]); right;
      first [left; congruence | right; assumption].
Qed.


(** X6: [wait_for_majority] is an observer: whatever it is shown and
    however it ends, it leaves the state machine, the clock and the record
    of calls as they were; the consensus state it ends in is the one it
    started in or one it was signalled with. *)
Theorem wait_for_majority_observes_only (evs : list cv_event) (w : world) :
  w_this (snd (wait_for_majority evs w)) = w_this w
  /\ w_now (snd (wait_for_majority evs w)) = w_now w
  /\ w_events (snd (wait_for_majority evs w)) = w_events w
  /\ (w_ptr (snd (wait_for_majority evs w)) = w_ptr w
      \/ In (cv_signalled (w_ptr (snd (wait_for_majority evs w)))) evs).
Proof.
  destruct (_append_result (w_this w)) as [[ar|e]|] eqn:Har.
  - rewrite (wait_for_majority_run ar evs w Har).
    pose proof (wait_end_of_frame (stop_cond (last_offset ar) (last_term ar))
                  evs w) as Hframe.
    destruct (wait_end_of (stop_cond (last_offset ar) (last_term ar)) evs w)
      as [w'|w'|w']; cbn [snd]; try exact Hframe.
    destruct Hframe as (Hthis & Hrest).
    rewrite <- Hthis in Har.
    rewrite (process_result_run ar (last_term ar) w' Har). cbn [snd].
    split; [exact Hthis | exact Hrest].
  - rewrite (wait_for_majority_errored e evs w Har). cbn [snd]. auto.
  - rewrite (wait_for_majority_unset evs w Har). cbn [snd]. auto.
Qed.



(** *** The follower slot, further *)

(** X8: [send_append_entries_request] never throws: it returns
    [append_entries_dispatch_error] when the append-entries unit cannot be
    taken and when the RPC fails with an exception, and otherwise what
    [validate_reply_target_node] makes of the RPC's reply (be it a reply or
    an error code). *)
Theorem send_append_entries_request_result (X : externals) (n : vnode)
    (batches : record_batch_reader) (w : world) :
  let unit_f :=
    get_append_entries_unit X n
      (update_node_append_timestamp X n (w_ptr w)) in
  let rpc :=
    client_append_entries X (vnode_id n)
      (mk_request (self (snd unit_f)) n (_meta (w_this w)) batches
         (_is_flush_required (w_this w)))
      (snd unit_f) in
  fst (send_append_entries_request X n batches w)
  = Returned
      match fst unit_f with
      | failed _ => err append_entries_dispatch_error
      | resolved _ =>
          match fst rpc with
          | failed _ => err append_entries_dispatch_error
          | resolved reply =>
              validate_reply_target_node X reply (vnode_id n) (snd rpc)
          end
      end.
Proof.
  unfold send_append_entries_request, signal_dispatch_sem, unsuppress.
  unfold_M. unfold with_event, with_this, with_ptr.
  cbn [fst snd w_this w_ptr w_now w_events].
  destruct (get_append_entries_unit X n
              (update_node_append_timestamp X n (w_ptr w))) as [[u|e] c];
    cbn [fst snd w_this w_ptr w_now w_events]; [|reflexivity].
  destruct (client_append_entries X (vnode_id n) _ c) as [[reply|e] c'];
    reflexivity.
Qed.



(** X10: a follower dispatch that finds the batch holder empty (as it is
    once the batches have been released) throws [bad_optional_access]
    before anything else happens: no signal, no RPC, no guard released.
    [dispatch_one] drops the failure, so no reply is routed either and
    the round is left exactly as it was. *)
Theorem follower_dispatch_without_batches (X : externals) (id : vnode)
    (w : world) :
  id <> _self (w_ptr w) ->
  share_mutex_get_units X (w_ptr w) = resolved tt ->
  _batches (w_this w) = None ->
  dispatch_single_retry X id w = (Threw bad_optional_access, w)
  /\ (_req_bg_closed (w_this w) = false ->
      dispatch_one X id w = (Returned (failed bad_optional_access), w)).
Proof.
  intros Hid Hm Hb.
  pose proof (dispatch_single_retry_unshared X id w bad_optional_access Hid
                (share_batches_empty X w Hm Hb)) as Hrun.
  split; [exact Hrun|].
  intros Hopen.
  apply (dispatch_one_threw X id w w bad_optional_access Hopen Hrun).
Qed.

Lemma follower_dispatch_without_batches_witness :
  dispatch_one healthy n2 released_world
  = (Returned (failed bad_optional_access), released_world).
Proof.
  apply (proj2 (follower_dispatch_without_batches healthy n2 released_world
                  ltac:(discriminate) eq_refl eq_refl) eq_refl).
Defined.

(** *** The reply routing *)

(** X11: after a dispatch that yielded [reply], [dispatch_one] hands the reply
    to [process_append_entries_reply] exactly once, with the node id of the
    peer, the sequence number the caller supplied for it (0 for the
    leader's own slot) and the round's dirty offset, and bumps the
    replicate-request-error probe first exactly when the reply is an error.
    A follower for which the caller supplied no sequence number aborts the
    process instead, after its dispatch (and the signal) has happened. *)
Theorem dispatch_one_body_routes_reply (X : externals) (id : vnode)
    (w w1 : world) (reply : result append_entries_reply) :
  dispatch_single_retry X id w = (Returned reply, w1) ->
  (forall seq,
     (id = self (w_ptr w1) /\ seq = 0)
     \/ (id <> self (w_ptr w1)
         /\ _followers_seq (w_this w1) !! id = Some seq) ->
     dispatch_one_body X id w
     = (Returned tt,
        mk_world
          (process_append_entries_reply X (vnode_id id) reply seq
             (_dirty_offset (w_this w1)) (w_ptr w1))
          (w_this w1) (w_now w1)
          ((w_events w1
            ++ (if has_error reply then [ev_replicate_request_error]
                else []))
           ++ [ev_process_append_entries_reply (vnode_id id) reply seq
                 (_dirty_offset (w_this w1))])))
  /\ (id <> self (w_ptr w1) ->
      _followers_seq (w_this w1) !! id = None ->
      dispatch_one_body X id w = (Aborted, w1)).
Proof.
  intros Hrun. unfold dispatch_one_body.
  rewrite (bind_returned _ _ _ _ _ Hrun). rewrite bind_ptr. cbn beta.
  split.
  - intros seq [[Hid ->] | [Hid Hseq]].
    + destruct (decide (id <> self (w_ptr w1))) as [Hne|_]; [contradiction|].
      rewrite bind_ret. cbn beta.
      destruct (has_error reply); unfold_M; unfold with_event, with_ptr;
        cbn [fst snd w_this w_ptr w_now w_events];
        rewrite ?app_nil_r; reflexivity.
    + destruct (decide (id <> self (w_ptr w1))) as [_|Heq]; [|contradiction].
      unfold bind at 1. rewrite bind_this. cbn beta. rewrite Hseq.
      destruct (has_error reply); unfold_M; unfold with_event, with_ptr;
        cbn [fst snd w_this w_ptr w_now w_events];
        rewrite ?app_nil_r; reflexivity.
  - intros Hid Hseq.
    destruct (decide (id <> self (w_ptr w1))) as [_|Heq]; [|contradiction].
    unfold bind at 1. rewrite bind_this. cbn beta. rewrite Hseq.
    reflexivity.
Qed.

(** Follower [n2] of a round for which the caller supplied no sequence
    numbers. *)
Lemma dispatch_one_body_routes_reply_witness :
  dispatch_one_body healthy n2 unsequenced_world
  = (Aborted, snd (dispatch_single_retry healthy n2 unsequenced_world)).
Proof.
  apply (proj2 (dispatch_one_body_routes_reply healthy n2 unsequenced_world
                  (snd (dispatch_single_retry healthy n2 unsequenced_world))
                  (ok (sample_reply n2 sample_consensus))
                  ltac:(vm_compute; reflexivity))).
  - vm_compute. discriminate.
  - vm_compute. reflexivity.
Defined.

(** *** The heartbeat guards *)

Lemma emplace_lookup {V} (m n : vnode) (v : V) (g : gmap vnode V) :
  emplace m v g !! n
  = match g !! n with
    | Some b => Some b
    | None => if decide (m = n) then Some v else None
    end.
Proof.
  unfold emplace. destruct (g !! m) as [b|] eqn:Hm.
  - destruct (g !! n) as [b'|] eqn:Hn; [reflexivity|].
    destruct (decide (m = n)) as [->|_]; [congruence | reflexivity].
  - destruct (decide (m = n)) as [->|Hne].
    + rewrite lookup_insert_eq, Hm. reflexivity.
    + rewrite lookup_insert_ne by exact Hne.
      destruct (g !! n); reflexivity.
Qed.

Lemma emplace_all_lookup (l : list vnode) (g : gmap vnode bool) (n : vnode) :
  foldl (fun g m => emplace m true g) g l !! n
  = match g !! n with
    | Some b => Some b
    | None => if bool_decide (n ∈ l) then Some true else None
    end.
Proof.
  revert g. induction l as [|m l IH]; intros g.
  - cbn [foldl]. destruct (g !! n); [reflexivity|].
    rewrite bool_decide_eq_false_2; [reflexivity|]. apply not_elem_of_nil.
  - cbn [foldl]. rewrite IH, emplace_lookup.
    destruct (g !! n) as [b|]; [reflexivity|].
    destruct (decide (m = n)) as [->|Hne].
    + rewrite bool_decide_eq_true_2; [reflexivity|].
      apply elem_of_cons. left. reflexivity.
    + destruct (bool_decide (n ∈ l)) eqn:Hl.
      * apply bool_decide_eq_true_1 in Hl.
        rewrite bool_decide_eq_true_2; [reflexivity|].
        apply elem_of_cons. right. exact Hl.
      * apply bool_decide_eq_false_1 in Hl.
        rewrite bool_decide_eq_false_2; [reflexivity|].
        intros Hin. apply elem_of_cons in Hin.
        destruct Hin as [->|Hin]; [congruence | contradiction].
Qed.

Lemma suppress_loop_guards (cfg : list vnode) (w : world) :
  for_each suppress_follower_heartbeats cfg w
  = (Returned tt,
     mk_world (w_ptr w)
       (set_hb_guards
          (foldl (fun g m => emplace m true g) (_hb_guards (w_this w))
             (filter (fun n => n <> _self (w_ptr w)) cfg))
          (w_this w))
       (w_now w)
       (w_events w
        ++ map ev_suppress_heartbeats
             (filter (fun n => n <> _self (w_ptr w)) cfg))).
Proof.
  revert w. induction cfg as [|n cfg IH]; intros w.
  - cbn [for_each]. unfold ret. apply (f_equal (pair _)).
    apply world_ext; cbn [w_ptr w_this w_now w_events];
      [reflexivity | | reflexivity | rewrite app_nil_r; reflexivity].
    apply stm_ext; reflexivity.
  - cbn [for_each]. unfold bind at 1.
    unfold suppress_follower_heartbeats at 1.
    rewrite bind_ptr. cbn beta.
    destruct (decide (n <> _self (w_ptr w))) as [Hn|Hn].
    + unfold_M. unfold with_event, with_this.
      cbn [fst snd w_this w_ptr w_now w_events].
      rewrite IH. cbn [w_this w_ptr w_now w_events].
      rewrite filter_cons_True by exact Hn.
      cbn [map foldl]. rewrite <- app_assoc. reflexivity.
    + unfold ret at 1. rewrite IH.
      rewrite filter_cons_False by exact Hn. reflexivity.
Qed.

(** X12: the first loop of [apply] cannot fail and touches the heartbeat
    guards only. It calls [suppress_heartbeats] once for each occurrence of
    a broker other than the leader in the configuration, in order; it
    installs a suppressing guard for each such broker that has none yet and
    leaves existing guards alone; and it never installs a guard for the
    leader itself. *)
Theorem suppress_loop_installs_guards (cfg : list vnode) (w : world) :
  let after := snd (for_each suppress_follower_heartbeats cfg w) in
  fst (for_each suppress_follower_heartbeats cfg w) = Returned tt
  /\ w_ptr after = w_ptr w
  /\ w_this after = set_hb_guards (_hb_guards (w_this after)) (w_this w)
  /\ w_events after
     = w_events w
       ++ map ev_suppress_heartbeats
            (filter (fun n => n <> _self (w_ptr w)) cfg)
  /\ (forall n,
        _hb_guards (w_this after) !! n
        = match _hb_guards (w_this w) !! n with
          | Some b => Some b
          | None =>
              if bool_decide (n ∈ cfg /\ n <> _self (w_ptr w))
              then Some true else None
          end)
  /\ _hb_guards (w_this after) !! _self (w_ptr w)
     = _hb_guards (w_this w) !! _self (w_ptr w).
Proof.
  intros after. subst after. rewrite suppress_loop_guards.
  cbn [fst snd w_ptr w_this w_events]. stm_fields.
  assert (Hlookup : forall n,
            foldl (fun g m => emplace m true g) (_hb_guards (w_this w))
              (filter (fun n0 => n0 <> _self (w_ptr w)) cfg) !! n
            = match _hb_guards (w_this w) !! n with
              | Some b => Some b
              | None =>
                  if bool_decide (n ∈ cfg /\ n <> _self (w_ptr w))
                  then Some true else None
              end).
  { intros n. rewrite emplace_all_lookup.
    destruct (_hb_guards (w_this w) !! n); [reflexivity|].
    rewrite (bool_decide_ext (n ∈ filter (fun n0 => n0 <> _self (w_ptr w)) cfg)
               (n ∈ cfg /\ n <> _self (w_ptr w))); [reflexivity|].
    rewrite list_elem_of_filter. tauto. }
  repeat split; try reflexivity.
  - exact Hlookup.
  - rewrite Hlookup.
    destruct (_hb_guards (w_this w) !! _self (w_ptr w)); [reflexivity|].
    rewrite bool_decide_eq_false_2; [reflexivity|]. tauto.
Qed.


(** *** The dispatch loop *)

(** X13: what one turn of the dispatch loop of [apply] does with a
    peer, behind an open gate, follows the skip policy. A peer that the
    policy skips is not counted and not dispatched to: its heartbeat
    guard is released, and that is all. A peer that the policy does not
    skip is counted exactly once, whatever becomes of its dispatch, which
    signals at most once. When the policy cannot answer (a peer of the
    stats table without a sequence number) the process stops before
    anything is counted. *)
Theorem dispatch_unless_skipped_follows_policy (X : externals) (rni : vnode)
    (w : world) :
  _req_bg_closed (w_this w) = false ->
  let after := snd (dispatch_unless_skipped X rni w) in
  (fst (should_skip_follower_request X rni w) = Returned true ->
   fst (dispatch_unless_skipped X rni w) = Returned tt
   /\ after
      = mk_world (w_ptr w)
          (set_hb_guards (<[rni := false]> (_hb_guards (w_this w)))
             (w_this w))
          (w_now w) (w_events w ++ [ev_unsuppress rni]))
  /\ (fst (should_skip_follower_request X rni w) = Returned false ->
      _requests_count (w_this after) = _requests_count (w_this w) + 1
      /\ (count_events is_signal (w_events after)
          <= S (count_events is_signal (w_events w)))%nat
      /\ _dispatch_sem (w_this after) - _dispatch_sem (w_this w)
         = Z.of_nat (count_events is_signal (w_events after))
           - Z.of_nat (count_events is_signal (w_events w))
      /\ (fst (dispatch_unless_skipped X rni w) = Returned tt
          \/ fst (dispatch_unless_skipped X rni w) = Aborted))
  /\ (fst (should_skip_follower_request X rni w) = Aborted ->
      dispatch_unless_skipped X rni w = (Aborted, w)).
Proof.
  intros Hopen after. subst after.
  destruct (dispatch_unless_skipped_cases X rni w Hopen)
    as [[Hskip Hrun]|[[Hskip (o & w' & k & Hrun & Hadv & Hk & Hout)]
                     |[Hskip Hrun]]];
    rewrite Hskip, Hrun; cbn [fst snd].
  - split; [intros _; split; reflexivity|]. split; discriminate.
  - split; [discriminate|]. split; [|discriminate]. intros _.
    destruct Hadv as [Hrc Hsem Hsig _ _ _ _ _ _].
    rewrite Hrc, Hsem, Hsig. cbn [Z.of_nat].
    split; [lia|]. split; [lia|]. split; [lia|exact Hout].
  - split; [discriminate|]. split; [discriminate|]. reflexivity.
Qed.

(** Learner [n3] of the sample round is skipped. *)
Lemma dispatch_unless_skipped_follows_policy_witness :
  fst (dispatch_unless_skipped healthy n3 (sample_world healthy))
  = Returned tt
  /\ snd (dispatch_unless_skipped healthy n3 (sample_world healthy))
     = mk_world (w_ptr (sample_world healthy))
         (set_hb_guards
            (<[n3 := false]> (_hb_guards (w_this (sample_world healthy))))
            (w_this (sample_world healthy)))
         (w_now (sample_world healthy))
         (w_events (sample_world healthy) ++ [ev_unsuppress n3]).
Proof.
  apply (proj1 (dispatch_unless_skipped_follows_policy healthy n3
                  (sample_world healthy) eq_refl) eq_refl).
Defined.

(** *** The gate *)

(** X14: a closed gate is not swallowed by [dispatch_one]. The handler
    for [gate_closed_exception] is attached to the future that
    [with_gate] returns, and [with_gate] on a closed gate throws before
    it returns one: the exception leaves [dispatch_one] itself, with the
    round as it was, and the dispatch has not started. In the dispatch
    loop of [apply] a peer that is not skipped has been counted by then:
    the turn throws [gate_closed_exception] with [_requests_count] one
    higher and no signal. *)
Theorem dispatch_one_closed_gate_throws (X : externals) (id : vnode)
    (w : world) :
  _req_bg_closed (w_this w) = true ->
  dispatch_one X id w = (Threw gate_closed_exception, w)
  /\ (fst (should_skip_follower_request X id w) = Returned false ->
      fst (dispatch_unless_skipped X id w) = Threw gate_closed_exception
      /\ _requests_count (w_this (snd (dispatch_unless_skipped X id w)))
         = _requests_count (w_this w) + 1
      /\ _dispatch_sem (w_this (snd (dispatch_unless_skipped X id w)))
         = _dispatch_sem (w_this w)
      /\ w_events (snd (dispatch_unless_skipped X id w)) = w_events w).
Proof.
  intros Hclosed. split; [apply (dispatch_one_closed X id w Hclosed)|].
  intros Hskip.
  assert (Hpolicy : should_skip_follower_request X id w = (Returned false, w)).
  { rewrite (surjective_pairing (should_skip_follower_request X id w)).
    rewrite should_skip_follower_request_reads, Hskip. reflexivity. }
  unfold dispatch_unless_skipped.
  rewrite (bind_returned _ _ _ _ _ Hpolicy). rewrite bind_ptr. cbn beta.
  destruct (dispatch_bookkeeping_run id w) as [c Hstats].
  rewrite (bind_returned _ _ _ _ _ Hstats).
  rewrite bind_set_this.
  match goal with
  | |- context [bind (dispatch_one X id) _ ?w1] =>
      rewrite (bind_threw _ _ _ _ _ (dispatch_one_closed X id w1 Hclosed))
  end.
  cbn [fst snd with_this w_this w_events]. stm_fields.
  repeat split.
Qed.

(** Follower [n2] of the sample round once the gate has been closed. *)
Lemma dispatch_one_closed_gate_throws_witness :
  fst (dispatch_unless_skipped healthy n2
         (with_this (set_req_bg_closed true) (sample_world healthy)))
  = Threw gate_closed_exception.
Proof.
  apply (proj2 (dispatch_one_closed_gate_throws healthy n2
                  (with_this (set_req_bg_closed true) (sample_world healthy))
                  eq_refl) eq_refl).
Defined.

(** *** The round as a whole *)

(** X15: a round whose self append works, behind an open gate. Unless an
    assertion stops the process, [apply] returns success with the last
    offset of the disk append, which it has published as the dirty
    offset and stored as the append result; it has counted at most one
    request for each broker of the configuration, and there have been no
    more signals than counted requests. *)
Theorem apply_returns_appended_offset (X : externals) (u : list Z)
    (w : world) (b r1 r2 : record_batch_reader) (res : append_result) :
  share_mutex_get_units X (w_ptr w) = resolved tt ->
  _batches (w_this w) = Some b ->
  foreign_share_n X b (w_ptr w) = resolved (r1, r2) ->
  _req_bg_closed (w_this w) = false ->
  fst (disk_append X r1 (_is_flush_required (w_this w))
         (set_last_write_consistency_level
            (if _is_flush_required (w_this w) then quorum_ack else leader_ack)
            (w_ptr w)))
  = resolved res ->
  fst (apply X u w) = Aborted
  \/ (fst (apply X u w)
      = Returned (ok {| rr_last_offset := last_offset res |})
      /\ _dirty_offset (w_this (snd (apply X u w))) = last_offset res
      /\ _append_result (w_this (snd (apply X u w))) = Some (ok res)
      /\ _requests_count (w_this w)
         <= _requests_count (w_this (snd (apply X u w)))
         <= _requests_count (w_this w)
            + Z.of_nat (length (_config (w_ptr w)))
      /\ Z.of_nat (count_events is_signal (w_events (snd (apply X u w))))
         - Z.of_nat (count_events is_signal (w_events w))
         <= _requests_count (w_this (snd (apply X u w)))
            - _requests_count (w_this w)).
Proof.
  intros Hm Hb Hf Hopen Hok.
  destruct (apply_self_append_succeeded X u w b r1 r2 res Hm Hb Hf Hopen Hok)
    as [Habort | (n & k & Hk & Hn & Hret & Hrc & Hsig & Hres & Hdirty & _)].
  - left. exact Habort.
  - right. split; [exact Hret|]. split; [exact Hdirty|].
    split; [exact Hres|]. rewrite Hrc, Hsig. split; lia.
Qed.

(** The sample round: appended up to 42; the leader and voter [n2] are
    counted, learner [n3] is skipped. *)
Lemma apply_returns_appended_offset_witness :
  fst (apply healthy [1] (sample_world healthy)) = Aborted
  \/ (fst (apply healthy [1] (sample_world healthy))
      = Returned (ok {| rr_last_offset := 42 |})
      /\ _dirty_offset
           (w_this (snd (apply healthy [1] (sample_world healthy)))) = 42
      /\ _append_result
           (w_this (snd (apply healthy [1] (sample_world healthy))))
         = Some (ok (mk_append_result 42 5))
      /\ 0 <= _requests_count
                (w_this (snd (apply healthy [1] (sample_world healthy))))
         <= 0 + Z.of_nat (length [n1; n2; n3])
      /\ Z.of_nat
           (count_events is_signal
              (w_events (snd (apply healthy [1] (sample_world healthy)))))
         - Z.of_nat (count_events is_signal [])
         <= _requests_count
              (w_this (snd (apply healthy [1] (sample_world healthy))))
            - 0).
Proof.
  apply (apply_returns_appended_offset healthy [1] (sample_world healthy)
           [40; 41; 42] [40; 41; 42] [40; 41; 42] (mk_append_result 42 5)
           eq_refl eq_refl eq_refl eq_refl eq_refl).
Defined.
